(** * journal-preview.js: a shallow embedding and its properties

    The script fetches [assets/data/journal.json], sorts the entries by
    date, keeps the three newest, renders each as a card and appends the
    cards to the grid.  Every failure it handles ends in [showError].

    Modelling choices, in one place:
    - a JavaScript string is its sequence of UTF-16 code units;
    - an entry is a JSON object whose properties hold strings (the shape
      the header comment of the script documents); a property that is not
      there reads as [undefined];
    - the decoded payload is a JSON value whose arrays hold entries;
    - a Number is an integer or NaN; the integers the script computes with
      are exact in a double wherever the date they make is in range;
    - [Date] is modelled with local time equal to UTC;
    - the document is a finite map from element ids to elements; the grid
      and the placeholder are distinct elements of it, and the content of
      an element is the markup it holds;
    - the host (is [fetch] there, is [XMLHttpRequest] there, is [Intl]
      there) and what the network answers are inputs of [loadJournal];
    - [Array.prototype.sort] is the stable sort ECMAScript 2019 requires:
      that fixes its result where every entry has a date; where a date is
      missing the comparison function is no order, the arrangement is the
      engine's own, and nothing is stated here about which entries are
      selected, except for collections of at most three entries, which
      are selected whole. *)

From Stdlib Require Import ZArith String Ascii Decimal DecimalPos.
From stdpp Require Import base decidable option list numbers countable gmap sorting.

Local Open Scope Z_scope.

(** ** Strings *)

(** A string: its UTF-16 code units. *)
Abbreviation jsstring := (list N).

Definition AMP  : N := 38.   (* & *)
Definition LT   : N := 60.   (* < *)
Definition GT   : N := 62.   (* > *)
Definition QUOT : N := 34.   (* the double quote *)
Definition APOS : N := 39.   (* ' *)
Definition DASH : N := 45.   (* - *)
Definition PLUS : N := 43.   (* + *)
Definition BACKTICK : N := 96.

(** An ASCII literal of the script, as code units. *)
Fixpoint lit (s : string) : jsstring :=
  match s with
  | EmptyString => []
  | String a rest => N_of_ascii a :: lit rest
  end.

Arguments lit : simpl never.

(** A literal of the script that holds double quotes: they are written as
    backticks here (the script's literals hold no backtick). *)
Definition markup (s : string) : jsstring :=
  map (fun c => if (c =? BACKTICK)%N then QUOT else c) (lit s).

(** [a < b] on two strings: the first differing code unit decides, and a
    proper prefix is smaller. *)
Fixpoint str_lt (a b : jsstring) : bool :=
  match a, b with
  | _, [] => false
  | [], _ :: _ => true
  | x :: a', y :: b' =>
      if (x <? y)%N then true
      else if (y <? x)%N then false
      else str_lt a' b'
  end.

(** [s.split(sep)] for a separator of one code unit. *)
Fixpoint split (sep : N) (s : jsstring) : list jsstring :=
  match s with
  | [] => [[]]
  | c :: rest =>
      if (c =? sep)%N then [] :: split sep rest
      else match split sep rest with
           | p :: ps => (c :: p) :: ps
           | [] => [[c]]
           end
  end.

(** ** Values *)

(** What reading a property of an entry yields. *)
Inductive value :=
| VUndefined
| VString (s : jsstring).

#[global] Instance value_eq_dec : EqDecision value.
Proof. solve_decision. Defined.

(** An entry of journal.json: property name to string. *)
Abbreviation entry := (gmap jsstring jsstring).

(** [e.k] *)
Definition get (e : entry) (k : jsstring) : value :=
  match e !! k with
  | Some s => VString s
  | None => VUndefined
  end.

(** [String(v)] *)
Definition ToString (v : value) : jsstring :=
  match v with
  | VUndefined => lit "undefined"
  | VString s => s
  end.

(** Truthiness: the empty string and [undefined] are falsy. *)
Definition ToBoolean (v : value) : bool :=
  match v with
  | VUndefined => false
  | VString [] => false
  | VString (_ :: _) => true
  end.

(** [x < y]: two strings compare by code units; [undefined] converts to
    NaN, and every comparison with NaN is false. *)
Definition js_lt (x y : value) : bool :=
  match x, y with
  | VString a, VString b => str_lt a b
  | _, _ => false
  end.

(** [x > y] *)
Definition js_gt (x y : value) : bool := js_lt y x.

#[local] Set Warnings "-register-all".

(** The decoded payload.  Numbers are the integer-valued ones: the script
    only looks at their being zero. *)
Inductive json :=
| JNull
| JBool (b : bool)
| JNum (n : Z)
| JStr (s : jsstring)
| JArr (items : list entry)
| JObj (props : gmap jsstring json).

(** ** Exceptions *)

Inductive error :=
| TypeError
| ReferenceError
| SyntaxError
| NotOk (status : Z)   (* new Error('Network response was not ok (...)') *)
| FetchRejected.

Inductive completion (A : Type) :=
| Normal (a : A)
| Throw (e : error).
Arguments Normal {A} a.
Arguments Throw {A} e.

#[global] Instance completion_ret : MRet completion := @Normal.

#[global] Instance completion_bind : MBind completion := fun A B k c =>
  match c with
  | Normal a => k a
  | Throw e => Throw e
  end.

(** [l.map(f)] for a callback that may throw: the first exception ends it. *)
Fixpoint Array_map {A B} (f : A → completion B) (l : list A) : completion (list B) :=
  match l with
  | [] => Normal []
  | x :: rest => y ← f x; ys ← Array_map f rest; Normal (y :: ys)
  end.

(** ** Numbers and dates *)

(** A Number: [None] is NaN. *)
Abbreviation number := (option Z).

(** WhiteSpace and LineTerminator code units, which [parseInt] skips. *)
Definition white_space (c : N) : bool :=
  bool_decide (c ∈ [9; 10; 11; 12; 13; 32; 160; 5760; 8192; 8193; 8194; 8195;
                    8196; 8197; 8198; 8199; 8200; 8201; 8202; 8232; 8233;
                    8239; 8287; 12288; 65279]%N).

Definition digit (c : N) : option Z :=
  if ((48 <=? c) && (c <=? 57))%N then Some (Z.of_N c - 48) else None.

Fixpoint trim_start (s : jsstring) : jsstring :=
  match s with
  | c :: rest => if white_space c then trim_start rest else s
  | [] => []
  end.

(** The decimal digits a string starts with. *)
Fixpoint leading_digits (s : jsstring) : list Z :=
  match s with
  | c :: rest =>
      match digit c with
      | Some d => d :: leading_digits rest
      | None => []
      end
  | [] => []
  end.

(** [parseInt(s, 10)] *)
Definition parseInt (s : jsstring) : number :=
  let s1 := trim_start s in
  let '(sign, s2) :=
    match s1 with
    | c :: rest =>
        if (c =? DASH)%N then (-1, rest)
        else if (c =? PLUS)%N then (1, rest)
        else (1, s1)
    | [] => (1, s1)
    end in
  match leading_digits s2 with
  | [] => None
  | ds => Some (sign * foldl (fun acc d => 10 * acc + d) 0 ds)
  end.

Fixpoint digits (u : uint) : jsstring :=
  match u with
  | Nil => []
  | D0 u => 48%N :: digits u
  | D1 u => 49%N :: digits u
  | D2 u => 50%N :: digits u
  | D3 u => 51%N :: digits u
  | D4 u => 52%N :: digits u
  | D5 u => 53%N :: digits u
  | D6 u => 54%N :: digits u
  | D7 u => 55%N :: digits u
  | D8 u => 56%N :: digits u
  | D9 u => 57%N :: digits u
  end.

(** [String(n)] for an integer. *)
Definition NumberToString (n : Z) : jsstring :=
  match Z.to_int n with
  | Pos u => digits u
  | Neg u => DASH :: digits u
  end.

Definition msPerDay : Z := 86400000.

Definition Day (t : Z) : Z := t / msPerDay.

Definition DayFromYear (y : Z) : Z :=
  365 * (y - 1970) + (y - 1969) / 4 - (y - 1901) / 100 + (y - 1601) / 400.

Definition DaysInYear (y : Z) : Z :=
  if negb (y mod 4 =? 0) then 365
  else if negb (y mod 100 =? 0) then 366
  else if negb (y mod 400 =? 0) then 365
  else 366.

(** The year a day number falls in: the largest [y] whose first day is not
    after it.  The quotient by the mean year length is off by one at most. *)
Definition YearFromDay (d : Z) : Z :=
  let y := 1970 + d * 400 / 146097 in
  if d <? DayFromYear y then y - 1
  else if DayFromYear (y + 1) <=? d then y + 1
  else y.

Definition YearFromTime (t : Z) : Z := YearFromDay (Day t).

Definition InLeapYear (t : Z) : Z :=
  if DaysInYear (YearFromTime t) =? 366 then 1 else 0.

Definition DayWithinYear (t : Z) : Z := Day t - DayFromYear (YearFromTime t).

Definition MonthFromTime (t : Z) : Z :=
  let d := DayWithinYear t in
  let leap := InLeapYear t in
  if d <? 31 then 0
  else if d <? 59 + leap then 1
  else if d <? 90 + leap then 2
  else if d <? 120 + leap then 3
  else if d <? 151 + leap then 4
  else if d <? 181 + leap then 5
  else if d <? 212 + leap then 6
  else if d <? 243 + leap then 7
  else if d <? 273 + leap then 8
  else if d <? 304 + leap then 9
  else if d <? 334 + leap then 10
  else 11.

Definition DateFromTime (t : Z) : Z :=
  let d := DayWithinYear t in
  let leap := InLeapYear t in
  match MonthFromTime t with
  | 0 => d + 1
  | 1 => d - 30
  | 2 => d - 58 - leap
  | 3 => d - 89 - leap
  | 4 => d - 119 - leap
  | 5 => d - 150 - leap
  | 6 => d - 180 - leap
  | 7 => d - 211 - leap
  | 8 => d - 242 - leap
  | 9 => d - 272 - leap
  | 10 => d - 303 - leap
  | _ => d - 333 - leap
  end.

(** Days from the start of a year to the start of its month [mn] (0..11). *)
Definition DaysBeforeMonth (leap mn : Z) : Z :=
  match mn with
  | 0 => 0
  | 1 => 31
  | 2 => 59 + leap
  | 3 => 90 + leap
  | 4 => 120 + leap
  | 5 => 151 + leap
  | 6 => 181 + leap
  | 7 => 212 + leap
  | 8 => 243 + leap
  | 9 => 273 + leap
  | 10 => 304 + leap
  | _ => 334 + leap
  end.

Definition MakeDay (year month date : Z) : Z :=
  let ym := year + month / 12 in
  let mn := month mod 12 in
  let leap := if DaysInYear ym =? 366 then 1 else 0 in
  DayFromYear ym + DaysBeforeMonth leap mn + date - 1.

Definition MakeDate (day time : Z) : Z := day * msPerDay + time.

Definition TimeClip (t : Z) : number :=
  if Z.abs t <=? 8640000000000000 then Some t else None.

(** [new Date(year, month, date)]: its time value, NaN when the date is
    invalid. *)
Definition Date (year month date : number) : number :=
  match year, month, date with
  | Some y, Some m, Some dt =>
      let yr := if (0 <=? y) && (y <=? 99) then 1900 + y else y in
      TimeClip (MakeDate (MakeDay yr m dt) 0)
  | _, _, _ => None
  end.

(** [n - 1] *)
Definition minus_one (n : number) : number := (fun z => z - 1) <$> n.

Definition getDate (t : Z) : Z := DateFromTime t.
Definition getMonth (t : Z) : Z := MonthFromTime t.
Definition getFullYear (t : Z) : Z := YearFromTime t.

(** ** The host *)

Record host := {
  (** [typeof fetch === 'function'] *)
  has_fetch : bool;
  (** is [XMLHttpRequest] defined *)
  has_XMLHttpRequest : bool;
  (** [Intl.DateTimeFormat('en-NZ', {day, month, year}).format], when the
      host has [Intl]: from the time value of a valid date to its text *)
  Intl_format : option (Z → jsstring)
}.

(** What the network answers to the one request: an error, or a response
    with a status and a body that decodes as JSON or does not. *)
Inductive network :=
| NetworkFailure
| Response (status : Z) (body : option json).

(** ** The script *)

Definition GRID_ID : jsstring := lit "journal-preview-grid".
Definition FALLBACK_ID : jsstring := lit "journal-preview-fallback".
(** The one resource the script asks for; [network] is the answer to that
    request. *)
Definition JSON_URL : jsstring := lit "assets/data/journal.json".
Definition MAX_CARDS : nat := 3.

(** *** The document *)

Record element := {
  innerHTML : jsstring;
  (** [style.display] *)
  display : jsstring
}.

Abbreviation document := (gmap jsstring element).

(** [el.style.display = v] *)
Definition set_display (v : jsstring) (el : element) : element :=
  {| innerHTML := innerHTML el; display := v |}.

(** [el.innerHTML = v] *)
Definition set_innerHTML (v : jsstring) (el : element) : element :=
  {| innerHTML := v; display := display el |}.

(** [el.insertAdjacentHTML('beforeend', html)] *)
Definition insertAdjacentHTML_beforeend (html : jsstring) (el : element) : element :=
  {| innerHTML := innerHTML el ++ html; display := display el |}.

(** *** Date formatting *)

(** [a[i]] *)
Definition index (a : list jsstring) (i : Z) : value :=
  if i <? 0 then VUndefined
  else match a !! Z.to_nat i with
       | Some s => VString s
       | None => VUndefined
       end.

Definition months : list jsstring :=
  [lit "Jan"; lit "Feb"; lit "Mar"; lit "Apr"; lit "May"; lit "Jun";
   lit "Jul"; lit "Aug"; lit "Sep"; lit "Oct"; lit "Nov"; lit "Dec"].

(** The [catch] branch of [formatDate], for a valid date. *)
Definition manual_format (t : Z) : jsstring :=
  NumberToString (getDate t) ++ lit " "
  ++ ToString (index months (getMonth t)) ++ lit " "
  ++ NumberToString (getFullYear t).

Definition formatDate (h : host) (iso : value) : completion jsstring :=
  match iso with
  | VUndefined => Throw TypeError   (* iso.split of undefined *)
  | VString s =>
      let parts := split DASH s in
      if (length parts <? 3)%nat then Normal s
      else
        let d := Date (parseInt (ToString (index parts 0)))
                      (minus_one (parseInt (ToString (index parts 1))))
                      (parseInt (ToString (index parts 2))) in
        match d with
        | None => Normal s           (* isNaN(d.getTime()) *)
        | Some t =>
            match Intl_format h with
            | Some format => Normal (format t)
            | None => Normal (manual_format t)
            end
        end
  end.

(** *** Escape HTML *)

(** The object literal [map] of [escapeHtml]. *)
Definition escape_map : entry :=
  <[ [AMP] := lit "&amp;" ]>
  (<[ [LT] := lit "&lt;" ]>
  (<[ [GT] := lit "&gt;" ]>
  (<[ [QUOT] := lit "&quot;" ]>
  (<[ [APOS] := lit "&#39;" ]> ∅)))).

(** The character class of the pattern. *)
Definition special (c : N) : bool :=
  bool_decide (c ∈ [AMP; LT; GT; QUOT; APOS]).

(** [s.replace(/[...]/g, f)] for a class of single code units: each code
    unit of the class is replaced by what [f] returns for it, as a string;
    the others are copied. *)
Fixpoint replace_class (cls : N → bool) (f : jsstring → value) (s : jsstring) : jsstring :=
  match s with
  | [] => []
  | c :: rest =>
      (if cls c then ToString (f [c]) else [c]) ++ replace_class cls f rest
  end.

Definition escapeHtml (str : value) : jsstring :=
  replace_class special (fun c => get escape_map c) (ToString str).

(** *** Card template *)

Definition buildCard (h : host) (e : entry) : completion jsstring :=
  formattedDate ← formatDate h (get e (lit "date"));
  let safeTitle := escapeHtml (get e (lit "title")) in
  let safeExcerpt := escapeHtml (get e (lit "excerpt")) in
  let safeCategory := escapeHtml (get e (lit "category")) in
  let safeReadTime :=
    if ToBoolean (get e (lit "readTime"))
    then escapeHtml (get e (lit "readTime")) else [] in
  let safeUrl := escapeHtml (get e (lit "url")) in
  Normal (
    markup "<li class=`card`>" ++
      markup "<span class=`card__category`>" ++ safeCategory ++ lit "</span>" ++
      markup "<h3 class=`card__title`>" ++
        markup "<a href=`" ++ safeUrl ++ markup "`>" ++ safeTitle ++ lit "</a>" ++
      lit "</h3>" ++
      markup "<p class=`card__excerpt`>" ++ safeExcerpt ++ lit "</p>" ++
      markup "<div class=`card__meta`>" ++
        markup "<time class=`card__date` datetime=`"
          ++ escapeHtml (get e (lit "date")) ++ markup "`>" ++
          formattedDate ++
        lit "</time>" ++
        (if ToBoolean (VString safeReadTime)
         then markup "<span class=`card__read-time`>" ++ safeReadTime ++ lit "</span>"
         else []) ++
      lit "</div>" ++
    lit "</li>").

(** *** Render *)

(** The comparison function handed to [sort]. *)
Definition compareFn (a b : entry) : Z :=
  if js_lt (get b (lit "date")) (get a (lit "date")) then -1
  else if js_gt (get b (lit "date")) (get a (lit "date")) then 1
  else 0.

(** [x] goes before the first element it does not sort after. *)
Fixpoint sort_insert {A} (cmp : A → A → Z) (x : A) (l : list A) : list A :=
  match l with
  | [] => [x]
  | y :: rest => if cmp x y <=? 0 then x :: l else y :: sort_insert cmp x rest
  end.

(** [l.slice().sort(cmp)]: a stable sort of a copy.  For a consistent
    comparison function the result is the one every conforming engine
    gives; for one that is no order (an entry without a date) it is an
    arrangement of the same elements, not necessarily the engine's. *)
Definition Array_sort {A} (cmp : A → A → Z) (l : list A) : list A :=
  foldr (sort_insert cmp) [] l.

Definition sorted (entries : list entry) : list entry :=
  Array_sort compareFn entries.

Definition latest (entries : list entry) : list entry :=
  take MAX_CARDS (sorted entries).

(** Hide the loading fallback *)
Definition hide_fallback (doc : document) : document :=
  match doc !! FALLBACK_ID with
  | Some fallback => <[FALLBACK_ID := set_display (lit "none") fallback]> doc
  | None => doc
  end.

(** Append cards: [grid] is the element found under [GRID_ID] at start. *)
Definition append_cards (html : jsstring) (doc : document) : document :=
  alter (insertAdjacentHTML_beforeend html) GRID_ID doc.

Definition renderCards (h : host) (entries : list entry) (doc : document)
  : document * completion unit :=
  let doc1 := hide_fallback doc in
  match Array_map (buildCard h) (latest entries) with
  | Throw e => (doc1, Throw e)
  | Normal cards => (append_cards (concat cards) doc1, Normal ())
  end.

(** *** Error state *)

Definition error_html (message : jsstring) : jsstring :=
  lit "<p>" ++ escapeHtml (VString message) ++ lit "</p>" ++
  markup "<p><a href=`journal.html`>Browse all journal entries</a>.</p>".

Definition showError (message : jsstring) (doc : document) : document :=
  match doc !! FALLBACK_ID with
  | Some fallback => <[FALLBACK_ID := set_innerHTML (error_html message) fallback]> doc
  | None => doc
  end.

(** *** Fetch *)

Definition NO_ENTRIES : jsstring := lit "No journal entries found yet.".
Definition COULD_NOT_LOAD : jsstring := lit "Could not load journal entries at this time.".
Definition COULD_NOT_READ : jsstring := lit "Could not read journal data.".

(** [!data] *)
Definition falsy (data : json) : bool :=
  match data with
  | JNull => true
  | JBool b => negb b
  | JNum n => n =? 0
  | JStr s => bool_decide (s = [])
  | JArr _ | JObj _ => false
  end.

(** [data.entries], for a [data] that is not [null]: an own property of an
    object; nothing (undefined, or for an array the method of that name)
    otherwise. *)
Definition data_entries (data : json) : option json :=
  match data with
  | JObj props => props !! lit "entries"
  | _ => None
  end.

(** [Array.isArray(v)] *)
Definition Array_isArray (v : option json) : bool :=
  match v with
  | Some (JArr _) => true
  | _ => false
  end.

(** The elements of an array. *)
Definition elements (v : option json) : list entry :=
  match v with
  | Some (JArr items) => items
  | _ => []
  end.

(** The body both paths run on the decoded payload (the second [then] of
    the fetch chain, the inside of [try] in [xhr.onload]): check the
    collection, then render. *)
Definition onData (h : host) (data : json) (doc : document)
  : document * completion unit :=
  if falsy data
     || negb (Array_isArray (data_entries data))
     || (length (elements (data_entries data)) =? 0)%nat
  then (showError NO_ENTRIES doc, Normal ())
  else renderCards h (elements (data_entries data)) doc.

(** [try { body } catch (e) { handler }], and a promise chain ending in
    [.catch(handler)]. *)
Definition try_catch (body : document → document * completion unit)
    (handler : error → document → document * completion unit)
    (doc : document) : document * completion unit :=
  match body doc with
  | (doc', Throw e) => handler e doc'
  | done => done
  end.

(** [response.ok], and the test of [xhr.onload]. *)
Definition status_ok (status : Z) : bool := (200 <=? status) && (status <? 300).

Definition loadJournal (h : host) (net : network) (doc : document)
  : document * completion unit :=
  if has_fetch h then
    try_catch
      (fun doc =>
         match net with
         | NetworkFailure => (doc, Throw FetchRejected)
         | Response status body =>
             if negb (status_ok status) then (doc, Throw (NotOk status))
             else match body with
                  | None => (doc, Throw SyntaxError)   (* response.json() rejects *)
                  | Some data => onData h data doc
                  end
         end)
      (fun _ doc => (showError COULD_NOT_LOAD doc, Normal ()))
      doc
  else if has_XMLHttpRequest h then
    match net with
    | Response status body =>       (* xhr.onload *)
        if status_ok status then
          try_catch
            (fun doc =>
               match body with
               | None => (doc, Throw SyntaxError)   (* JSON.parse throws *)
               | Some data => onData h data doc
               end)
            (fun _ doc => (showError COULD_NOT_READ doc, Normal ()))
            doc
        else (showError COULD_NOT_LOAD doc, Normal ())
    | NetworkFailure =>             (* xhr.onerror *)
        (showError COULD_NOT_LOAD doc, Normal ())
    end
  else (doc, Throw ReferenceError).   (* new XMLHttpRequest() *)

(** The whole script: nothing happens on a page without the grid. *)
Definition main (h : host) (net : network) (doc : document)
  : document * completion unit :=
  match doc !! GRID_ID with
  | None => (doc, Normal ())
  | Some _ => loadJournal h net doc
  end.

(** ** Vocabulary of the properties *)

(** What a single code unit is escaped to. *)
Definition entity (c : N) : jsstring :=
  if (c =? AMP)%N then lit "&amp;"
  else if (c =? LT)%N then lit "&lt;"
  else if (c =? GT)%N then lit "&gt;"
  else if (c =? QUOT)%N then lit "&quot;"
  else if (c =? APOS)%N then lit "&#39;"
  else [c].

(** What follows the ampersand in the five replacements. *)
Definition entity_names : list jsstring :=
  [lit "amp;"; lit "lt;"; lit "gt;"; lit "quot;"; lit "#39;"].

(** How often a code unit occurs in a string. *)
Definition occurrences (c : N) (s : jsstring) : nat :=
  length (filter (fun x => x = c) s).

(** The string splits at its dashes into at least three components, and
    [parseInt] reads the numbers [y], [m] and [d] off the first three. *)
Definition date_components (s : jsstring) (y m d : Z) : Prop :=
  ∃ p0 p1 p2 rest,
    split DASH s = p0 :: p1 :: p2 :: rest
    ∧ parseInt p0 = Some y ∧ parseInt p1 = Some m ∧ parseInt p2 = Some d.

(** What [formatDate] returns for a valid date. *)
Definition formatted (h : host) (t : Z) : jsstring :=
  match Intl_format h with
  | Some format => format t
  | None => manual_format t
  end.

(** The days of month [m] (1..12) of year [y]. *)
Definition DaysInMonth (y m : Z) : Z :=
  match m with
  | 2 => if DaysInYear y =? 366 then 29 else 28
  | 4 | 6 | 9 | 11 => 30
  | _ => 31
  end.

(** Day [d] of month [m] of year [y] is a date of the calendar that
    [Date] takes as it is written: the year has no two-digit reading and
    is before the last year of the range. *)
Definition calendar_date (y m d : Z) : Prop :=
  100 ≤ y ≤ 275759 ∧ 1 ≤ m ≤ 12 ∧ 1 ≤ d ≤ DaysInMonth y m.

Definition DOT : N := 46.   (* . *)

(** The string has at least three components between its dots and dashes
    and the first three are numeric. *)
Definition three_numeric_components (s : jsstring) : Prop :=
  ∃ p0 p1 p2 rest,
    split DASH (map (fun c => if (c =? DOT)%N then DASH else c) s)
      = p0 :: p1 :: p2 :: rest
    ∧ is_Some (parseInt p0) ∧ is_Some (parseInt p1) ∧ is_Some (parseInt p2).

(** The entry has a [date]. *)
Definition has_date (e : entry) : Prop := is_Some (e !! lit "date").

(** [a] is not older than [b]: its date is not smaller as a string. *)
Definition not_older (a b : entry) : Prop :=
  js_lt (get a (lit "date")) (get b (lit "date")) = false.

(** The host has one of the two transports. *)
Definition has_transport (h : host) : Prop :=
  has_fetch h = true ∨ has_XMLHttpRequest h = true.

(** The message of the handler that catches what the [then] bodies throw:
    [.catch] on the fetch path, [catch] around [JSON.parse] on the other. *)
Definition catch_message (h : host) : jsstring :=
  if has_fetch h then COULD_NOT_LOAD else COULD_NOT_READ.

(** The payload is an object with a non-empty array under [entries]. *)
Definition collection_valid (data : json) (entries : list entry) : Prop :=
  ∃ props, data = JObj props
           ∧ props !! lit "entries" = Some (JArr entries) ∧ entries ≠ [].

(** The five kinds of failure, and the runs that show each. *)
Inductive error_kind :=
| TransportUnavailableError
| HttpStatusError
| NetworkError
| DecodeError
| ValidationError.

Definition raises (h : host) (net : network) (k : error_kind) : Prop :=
  match k with
  | TransportUnavailableError =>
      has_fetch h = false ∧ has_XMLHttpRequest h = false
  | HttpStatusError =>
      has_transport h
      ∧ ∃ status body, net = Response status body ∧ status_ok status = false
  | NetworkError =>
      has_transport h ∧ net = NetworkFailure
  | DecodeError =>
      has_transport h ∧ ∃ status, net = Response status None ∧ status_ok status = true
  | ValidationError =>
      has_transport h
      ∧ ∃ status data, net = Response status (Some data) ∧ status_ok status = true
                       ∧ ∀ entries, ¬ collection_valid data entries
  end.

(** The message each kind is said to end in. *)
Definition claimed_message (k : error_kind) : jsstring :=
  match k with
  | ValidationError => NO_ENTRIES
  | _ => COULD_NOT_LOAD
  end.

(** A transport failure: the call errored, or the status is not 2xx. *)
Definition transport_failure (net : network) : Prop :=
  match net with
  | NetworkFailure => True
  | Response status _ => ¬ (200 ≤ status < 300)
  end.

(** The content of the placeholder, when the document has one. *)
Definition placeholder_content (doc : document) : option jsstring :=
  innerHTML <$> doc !! FALLBACK_ID.

(** The [display] style of the placeholder, when the document has one. *)
Definition placeholder_display (doc : document) : option jsstring :=
  display <$> doc !! FALLBACK_ID.

(** Sample hosts and documents. *)
Definition fetch_host : host :=
  {| has_fetch := true; has_XMLHttpRequest := true; Intl_format := None |}.

Definition xhr_host : host :=
  {| has_fetch := false; has_XMLHttpRequest := true; Intl_format := None |}.

Definition bare_host : host :=
  {| has_fetch := false; has_XMLHttpRequest := false; Intl_format := None |}.

Definition sample_entry (title date : string) : entry :=
  <[lit "id" := lit title]>
  (<[lit "title" := lit title]>
  (<[lit "excerpt" := lit "Short summary text."]>
  (<[lit "category" := lit "UX Research"]>
  (<[lit "date" := lit date]>
  (<[lit "url" := lit "journal/entry-slug.html"]> ∅))))).

(** Five entries, oldest first, two of them of one date. *)
Definition sample_entries : list entry :=
  [sample_entry "one" "2025-01-01"; sample_entry "two" "2025-01-04";
   sample_entry "three" "2025-01-03"; sample_entry "four" "2025-01-04";
   sample_entry "five" "2025-01-05"].

(** The card of a sample entry, as the script writes it. *)
Definition sample_card (title date shown : string) : jsstring :=
  markup ("<li class=`card`><span class=`card__category`>UX Research</span>"
          ++ "<h3 class=`card__title`><a href=`journal/entry-slug.html`>"
          ++ title ++ "</a></h3>"
          ++ "<p class=`card__excerpt`>Short summary text.</p>"
          ++ "<div class=`card__meta`><time class=`card__date` datetime=`"
          ++ date ++ "`>" ++ shown ++ "</time></div></li>").

Definition sample_payload (entries : list entry) : json :=
  JObj {[ lit "entries" := JArr entries ]}.

Definition untitled_entry : entry :=
  delete (lit "title") (sample_entry "one" "2025-01-01").

Definition undated_entry : entry :=
  delete (lit "date") (sample_entry "one" "2025-01-01").

Definition home_page : document :=
  <[GRID_ID := {| innerHTML := []; display := [] |}]>
  (<[FALLBACK_ID := {| innerHTML := lit "<p>Loading journal entries</p>"; display := [] |}]> ∅).

(** ** Vocabulary of the further properties *)

(** The entry has no [date]. *)
Definition undated (e : entry) : Prop := e !! lit "date" = None.

(** The element under an id is as before. *)
Definition same_element (id : jsstring) (doc doc' : document) : Prop :=
  doc' !! id = doc !! id.



(** The text the fallback shows for day [d] of month [m] of year [y]. *)
Definition shown_date (y m d : Z) : jsstring :=
  NumberToString d ++ lit " "
  ++ ToString (index months (m - 1)) ++ lit " " ++ NumberToString y.


(** The month after month [m] of year [y]. *)
Definition month_after (y m : Z) : Z * Z :=
  if m =? 12 then (y + 1, 1) else (y, m + 1).

(** The text a field of an entry is rendered as: its string, escaped, or
    the text "undefined" when the entry has no such field. *)
Definition rendered_text (e : entry) (k : jsstring) : jsstring :=
  match e !! k with
  | Some s => escapeHtml (VString s)
  | None => lit "undefined"
  end.

(** The read-time element of a card: there for a read time that is not
    empty, left out otherwise. *)
Definition read_time_element (e : entry) : jsstring :=
  match e !! lit "readTime" with
  | Some (c :: s) =>
      markup "<span class=`card__read-time`>"
      ++ escapeHtml (VString (c :: s)) ++ lit "</span>"
  | _ => []
  end.

(** A card, from the texts of its parts. *)
Definition card_of (category url title excerpt datetime shown read_time : jsstring)
  : jsstring :=
  markup "<li class=`card`>"
  ++ markup "<span class=`card__category`>" ++ category ++ lit "</span>"
  ++ markup "<h3 class=`card__title`>"
  ++ markup "<a href=`" ++ url ++ markup "`>" ++ title ++ lit "</a>"
  ++ lit "</h3>"
  ++ markup "<p class=`card__excerpt`>" ++ excerpt ++ lit "</p>"
  ++ markup "<div class=`card__meta`>"
  ++ markup "<time class=`card__date` datetime=`" ++ datetime ++ markup "`>"
  ++ shown ++ lit "</time>"
  ++ read_time
  ++ lit "</div>"
  ++ lit "</li>".

(** The abbreviations of a host whose locale data shortens September to
    four letters. *)
Definition sept_months : list jsstring :=
  [lit "Jan"; lit "Feb"; lit "Mar"; lit "Apr"; lit "May"; lit "Jun";
   lit "Jul"; lit "Aug"; lit "Sept"; lit "Oct"; lit "Nov"; lit "Dec"].

(** The formatter of such a host: day, its abbreviation of the month,
    year. *)
Definition sept_format (t : Z) : jsstring :=
  NumberToString (getDate t) ++ lit " "
  ++ ToString (index sept_months (getMonth t)) ++ lit " "
  ++ NumberToString (getFullYear t).

Definition sept_host : host :=
  {| has_fetch := true; has_XMLHttpRequest := true; Intl_format := Some sept_format |}.

(** * Properties *)

(** Membership in a list that is written out. *)
Ltac in_list :=
  repeat first [apply list_elem_of_here | apply list_elem_of_further].

(** ** Strings and numbers *)

Example split_iso :
  split DASH (lit "2025-02-15") = [lit "2025"; lit "02"; lit "15"].
Proof. reflexivity. Qed.

Example split_empty : split DASH [] = [[]].
Proof. reflexivity. Qed.

Example split_edges : split DASH (lit "-a-") = [[]; lit "a"; []].
Proof. reflexivity. Qed.

Example str_lt_iso : str_lt (lit "2025-01-31") (lit "2025-02-01") = true.
Proof. reflexivity. Qed.

Example str_lt_prefix : str_lt (lit "2025") (lit "2025-01-01") = true.
Proof. reflexivity. Qed.

Example parseInt_leading : parseInt (lit " 15abc") = Some 15.
Proof. reflexivity. Qed.

Example parseInt_zero_padded : parseInt (lit "02") = Some 2.
Proof. reflexivity. Qed.

Example parseInt_NaN : parseInt (lit "not") = None.
Proof. reflexivity. Qed.

Example NumberToString_year : NumberToString 2025 = lit "2025".
Proof. reflexivity. Qed.

Example Date_rolls_over :
  Date (Some 2025) (Some 13) (Some 15) = Date (Some 2026) (Some 1) (Some 15).
Proof. reflexivity. Qed.

Example Date_two_digit_year :
  Date (Some 5) (Some 0) (Some 1) = Date (Some 1905) (Some 0) (Some 1).
Proof. reflexivity. Qed.

Example Date_last_day : Date (Some 275760) (Some 8) (Some 13) = Some 8640000000000000.
Proof. reflexivity. Qed.

Example Date_past_last_day : Date (Some 275760) (Some 8) (Some 14) = None.
Proof. reflexivity. Qed.

(** ** escapeHtml *)

Section escape.

Lemma special_cases c :
  c = AMP ∨ c = LT ∨ c = GT ∨ c = QUOT ∨ c = APOS ∨ special c = false.
Proof.
  unfold special. case_bool_decide as Hc; [|by repeat right].
  repeat (apply elem_of_cons in Hc as [->|Hc]; [tauto|]).
  by apply elem_of_nil in Hc.
Qed.

Lemma special_false c :
  special c = false → c ≠ AMP ∧ c ≠ LT ∧ c ≠ GT ∧ c ≠ QUOT ∧ c ≠ APOS.
Proof.
  intros Hc. repeat split; intros ->; vm_compute in Hc; discriminate.
Qed.

Lemma entity_plain c : special c = false → entity c = [c].
Proof.
  intros (?&?&?&?&?)%special_false. unfold entity.
  by rewrite !(proj2 (N.eqb_neq _ _)).
Qed.

(** One step of the replacement, whatever the code unit. *)
Lemma escape_step c :
  (if special c then ToString (get escape_map [c]) else [c]) = entity c.
Proof.
  destruct (special_cases c) as [->|[->|[->|[->|[->|Hc]]]]];
    try (vm_compute; reflexivity).
  by rewrite Hc, entity_plain.
Qed.

Example escapeHtml_sample :
  escapeHtml (VString (lit "<a href='x'>Tom & Jerry</a>"))
  = lit "&lt;a href=&#39;x&#39;&gt;Tom &amp; Jerry&lt;/a&gt;".
Proof. vm_compute. reflexivity. Qed.

Example escapeHtml_undefined : escapeHtml VUndefined = lit "undefined".
Proof. vm_compute. reflexivity. Qed.

Lemma escapeHtml_entities s :
  escapeHtml (VString s) = concat (map entity s).
Proof.
  unfold escapeHtml. simpl ToString.
  induction s as [|c s IH]; [done|].
  simpl. by rewrite escape_step, IH.
Qed.

Lemma escapeHtml_app s1 s2 :
  escapeHtml (VString (s1 ++ s2)) = escapeHtml (VString s1) ++ escapeHtml (VString s2).
Proof. by rewrite !escapeHtml_entities, map_app, concat_app. Qed.

Lemma entity_no_raw c x :
  x ∈ [LT; GT; QUOT; APOS] → x ∉ entity c.
Proof.
  intros Hx Hin.
  destruct (special_cases c) as [->|[->|[->|[->|[->|Hc]]]]].
  1-5: repeat (apply elem_of_cons in Hx as [->|Hx];
               [vm_compute in Hin; by repeat (apply elem_of_cons in Hin as [?|Hin]; [discriminate|]);
                apply elem_of_nil in Hin|]);
       by apply elem_of_nil in Hx.
  rewrite entity_plain in Hin by done.
  apply list_elem_of_singleton in Hin as ->.
  apply special_false in Hc as (?&?&?&?&?).
  repeat (apply elem_of_cons in Hx as [->|Hx]; [done|]).
  by apply elem_of_nil in Hx.
Qed.

Lemma entity_ampersands c :
  occurrences AMP (entity c) = if special c then 1%nat else 0%nat.
Proof.
  destruct (special_cases c) as [->|[->|[->|[->|[->|Hc]]]]];
    try (vm_compute; reflexivity).
  rewrite Hc, entity_plain by done.
  apply special_false in Hc as (?&_).
  unfold occurrences. rewrite filter_cons_False by done. done.
Qed.

Lemma occurrences_app c s1 s2 :
  occurrences c (s1 ++ s2) = (occurrences c s1 + occurrences c s2)%nat.
Proof. unfold occurrences. by rewrite filter_app, length_app. Qed.

(** An ampersand in what one code unit is escaped to is its first code
    unit, and the name of an entity follows. *)
Lemma entity_ampersand c (i : nat) :
  entity c !! i = Some AMP →
  i = 0%nat ∧ ∃ name, name ∈ entity_names ∧ entity c = AMP :: name.
Proof.
  intros Hi.
  destruct (special_cases c) as [->|[->|[->|[->|[->|Hc]]]]].
  1-5: destruct i as [|i];
       [split; [done|]; eexists; split; [|reflexivity]; unfold entity_names; in_list
       |exfalso; do 5 (destruct i as [|i]; [vm_compute in Hi; discriminate Hi|]);
        vm_compute in Hi; discriminate Hi].
  rewrite entity_plain in Hi by done.
  apply special_false in Hc as (Hc & _).
  destruct i as [|i]; simpl in Hi; [congruence|discriminate Hi].
Qed.

Lemma escapeHtml_ampersand_opens_entity s (i : nat) :
  escapeHtml (VString s) !! i = Some AMP →
  ∃ name, name ∈ entity_names
          ∧ name `prefix_of` drop (S i) (escapeHtml (VString s)).
Proof.
  rewrite escapeHtml_entities. revert i.
  induction s as [|c s IH]; intros i Hi; [done|]. simpl in *.
  destruct (decide (i < length (entity c))%nat) as [Hlt|Hge].
  - rewrite lookup_app_l in Hi by done.
    apply entity_ampersand in Hi as (-> & name & Hname & ->).
    exists name. split; [done|]. simpl. by eexists.
  - rewrite lookup_app_r in Hi by lia.
    apply IH in Hi as (name & Hname & Hpre).
    exists name. split; [done|].
    rewrite drop_app_ge by lia.
    by replace (S i - length (entity c))%nat with (S (i - length (entity c))) by lia.
Qed.

(** C1 (as amended): [escapeHtml] replaces each of the five characters
    (ampersand, less-than, greater-than, double quote, apostrophe) by
    &amp; &lt; &gt; &quot; &#39; and copies every other code unit; its
    output holds no less-than, greater-than, double quote or apostrophe,
    every ampersand in it opens one of the five replacements, and there is
    exactly one ampersand for each character it escaped; a string with
    none of the five comes back unchanged. *)
Theorem escapeHtml_contract (s : jsstring) :
  escapeHtml (VString s) = concat (map entity s)
  ∧ (∀ c, c ∈ [LT; GT; QUOT; APOS] → c ∉ escapeHtml (VString s))
  ∧ (∀ i : nat, escapeHtml (VString s) !! i = Some AMP →
       ∃ name, name ∈ entity_names
               ∧ name `prefix_of` drop (S i) (escapeHtml (VString s)))
  ∧ occurrences AMP (escapeHtml (VString s))
    = length (filter (fun c => special c = true) s)
  ∧ (Forall (fun c => special c = false) s → escapeHtml (VString s) = s).
Proof.
  split; [apply escapeHtml_entities|].
  split; [|split; [apply escapeHtml_ampersand_opens_entity|]].
  - rewrite escapeHtml_entities. intros c Hc.
    induction s as [|x s IH]; simpl.
    + apply not_elem_of_nil.
    + rewrite elem_of_app. intros [Hin|Hin]; [|done].
      by apply (entity_no_raw x c).
  - rewrite escapeHtml_entities. split.
    + induction s as [|c s IH]; [done|].
      simpl. rewrite occurrences_app, entity_ampersands, IH.
      destruct (special c) eqn:Hc.
      * by rewrite filter_cons_True.
      * rewrite filter_cons_False; [done|]. by rewrite Hc.
    + induction 1 as [|c s Hc _ IH]; [done|].
      simpl. by rewrite entity_plain, IH.
Qed.

Lemma escapeHtml_contract_witness :
  Forall (fun c => special c = false) (lit "5 min read")
  ∧ escapeHtml (VString (lit "5 min read")) = lit "5 min read".
Proof.
  assert (Forall (fun c => special c = false) (lit "5 min read")) as H.
  { repeat constructor. }
  split; [exact H|].
  exact (proj2 (proj2 (proj2 (proj2 (escapeHtml_contract (lit "5 min read"))))) H).
Defined.

(** C1 (as stated) fails: the output of escaping holds a raw ampersand. *)
Lemma escapeHtml_output_has_raw_ampersand :
  ¬ (∀ (s : jsstring) (c : N),
       c ∈ [AMP; LT; GT; QUOT; APOS] → c ∉ escapeHtml (VString s)).
Proof.
  intros H. apply (H (lit "<") AMP); vm_compute; constructor.
Qed.

End escape.

(** ** The error reporter *)

Section reporter.

Implicit Types (doc : document) (message : jsstring).

Lemma showError_present message doc fb :
  doc !! FALLBACK_ID = Some fb →
  showError message doc = <[FALLBACK_ID := set_innerHTML (error_html message) fb]> doc.
Proof. unfold showError. by intros ->. Qed.

Lemma showError_absent message doc :
  doc !! FALLBACK_ID = None → showError message doc = doc.
Proof. unfold showError. by intros ->. Qed.

Lemma showError_lookup_ne message doc id :
  id ≠ FALLBACK_ID → showError message doc !! id = doc !! id.
Proof.
  intros Hid. unfold showError.
  destruct (doc !! FALLBACK_ID); [|done]. by rewrite lookup_insert_ne.
Qed.

Lemma showError_lookup message doc :
  showError message doc !! FALLBACK_ID
  = set_innerHTML (error_html message) <$> doc !! FALLBACK_ID.
Proof.
  unfold showError. destruct (doc !! FALLBACK_ID) as [fb|] eqn:Hfb.
  - by rewrite lookup_insert_eq.
  - by rewrite Hfb.
Qed.

Lemma showError_content message doc :
  placeholder_content (showError message doc)
  = (fun _ => error_html message) <$> doc !! FALLBACK_ID.
Proof.
  unfold placeholder_content. rewrite showError_lookup.
  by destruct (doc !! FALLBACK_ID).
Qed.

Lemma showError_display message doc :
  placeholder_display (showError message doc) = placeholder_display doc.
Proof.
  unfold placeholder_display. rewrite showError_lookup.
  by destruct (doc !! FALLBACK_ID).
Qed.

Lemma showError_overwrites message message' doc :
  showError message (showError message' doc) = showError message doc.
Proof.
  destruct (doc !! FALLBACK_ID) as [fb|] eqn:Hfb.
  - rewrite (showError_present message' doc fb Hfb).
    erewrite showError_present by apply lookup_insert_eq.
    rewrite insert_insert_eq. by rewrite (showError_present message doc fb Hfb).
  - by rewrite (showError_absent message' doc Hfb).
Qed.

Lemma GRID_ID_ne_FALLBACK_ID : GRID_ID ≠ FALLBACK_ID.
Proof. vm_compute. discriminate. Qed.

(** C9: the error reporter is idempotent, it overwrites what an earlier
    call wrote, and without a placeholder it leaves the document as it is
    (it is a total function: no call of it throws). *)
Theorem showError_idempotent message message' doc :
  showError message (showError message doc) = showError message doc
  ∧ showError message (showError message' doc) = showError message doc
  ∧ (doc !! FALLBACK_ID = None → showError message doc = doc).
Proof.
  split; [apply showError_overwrites|].
  split; [apply showError_overwrites|apply showError_absent].
Qed.

Lemma showError_idempotent_witness :
  (∅ : document) !! FALLBACK_ID = None
  ∧ showError COULD_NOT_LOAD (∅ : document) = ∅.
Proof.
  assert ((∅ : document) !! FALLBACK_ID = None) as H by apply lookup_empty.
  split; [exact H|].
  exact (proj2 (proj2 (showError_idempotent COULD_NOT_LOAD NO_ENTRIES ∅)) H).
Defined.

End reporter.

(** ** The pipeline *)

Section pipeline.

Implicit Types (h : host) (net : network) (doc : document) (data : json).

Lemma hide_fallback_lookup_ne doc id :
  id ≠ FALLBACK_ID → hide_fallback doc !! id = doc !! id.
Proof.
  intros Hid. unfold hide_fallback.
  destruct (doc !! FALLBACK_ID); [|done]. by rewrite lookup_insert_ne.
Qed.

Lemma hide_fallback_lookup doc :
  hide_fallback doc !! FALLBACK_ID = set_display (lit "none") <$> doc !! FALLBACK_ID.
Proof.
  unfold hide_fallback. destruct (doc !! FALLBACK_ID) as [fb|] eqn:Hfb.
  - by rewrite lookup_insert_eq.
  - by rewrite Hfb.
Qed.

Lemma hide_fallback_content doc :
  placeholder_content (hide_fallback doc) = placeholder_content doc.
Proof.
  unfold placeholder_content. rewrite hide_fallback_lookup.
  by destruct (doc !! FALLBACK_ID).
Qed.

Lemma append_cards_lookup_ne html doc id :
  id ≠ GRID_ID → append_cards html doc !! id = doc !! id.
Proof. intros Hid. unfold append_cards. by rewrite lookup_alter_ne. Qed.

Lemma append_cards_content html doc :
  placeholder_content (append_cards html doc) = placeholder_content doc.
Proof.
  unfold placeholder_content. rewrite append_cards_lookup_ne; [done|].
  intros Heq. by apply GRID_ID_ne_FALLBACK_ID.
Qed.

(** [renderCards] hides the placeholder first; the grid changes only when
    every card was built. *)
Lemma renderCards_cases h entries doc :
  (∃ e, Array_map (buildCard h) (latest entries) = Throw e
        ∧ renderCards h entries doc = (hide_fallback doc, Throw e))
  ∨ (∃ cards, Array_map (buildCard h) (latest entries) = Normal cards
        ∧ renderCards h entries doc
          = (append_cards (concat cards) (hide_fallback doc), Normal ())).
Proof.
  unfold renderCards.
  destruct (Array_map (buildCard h) (latest entries)) as [cards|e]; eauto.
Qed.

Lemma onData_valid h data entries doc :
  collection_valid data entries → onData h data doc = renderCards h entries doc.
Proof.
  intros (props & -> & Hprops & Hne).
  unfold onData, falsy, data_entries. rewrite Hprops.
  unfold Array_isArray, elements. by destruct entries.
Qed.

Lemma onData_invalid h data doc :
  (∀ entries, ¬ collection_valid data entries) →
  onData h data doc = (showError NO_ENTRIES doc, Normal ()).
Proof.
  intros Hinv. unfold onData.
  destruct (falsy data) eqn:Hf; [done|].
  destruct data as [| | | | |props]; try done.
  unfold data_entries.
  destruct (props !! lit "entries") as [[| | | |[|e entries]|]|] eqn:Hp; try done.
  destruct (Hinv (e :: entries)). by exists props.
Qed.

(** The payload either holds a non-empty array of entries or it does not. *)
Lemma collection_valid_dec data :
  (∃ entries, collection_valid data entries) ∨ (∀ entries, ¬ collection_valid data entries).
Proof.
  destruct data as [| | | | |props];
    try (right; intros entries (? & ? & _); discriminate).
  destruct (props !! lit "entries") as [[| | | |items|]|] eqn:Hp;
    try (right; intros entries (? & ? & ? & _); simplify_eq; congruence).
  destruct items as [|e items].
  - right. intros entries (? & ? & ? & ?). by simplify_eq.
  - left. exists (e :: items), props. done.
Qed.

Lemma status_ok_range status : status_ok status = true ↔ 200 ≤ status < 300.
Proof. unfold status_ok. rewrite andb_true_iff, Z.leb_le, Z.ltb_lt. done. Qed.

Lemma loadJournal_fetch h net doc :
  has_fetch h = true →
  loadJournal h net doc =
    match net with
    | NetworkFailure => (showError COULD_NOT_LOAD doc, Normal ())
    | Response status body =>
        if status_ok status then
          match body with
          | None => (showError COULD_NOT_LOAD doc, Normal ())
          | Some data =>
              try_catch (onData h data)
                (fun _ doc => (showError COULD_NOT_LOAD doc, Normal ())) doc
          end
        else (showError COULD_NOT_LOAD doc, Normal ())
    end.
Proof.
  intros Hf. unfold loadJournal, try_catch. rewrite Hf.
  destruct net as [|status [data|]]; [done| |]; by destruct (status_ok status).
Qed.

Lemma loadJournal_xhr h net doc :
  has_fetch h = false → has_XMLHttpRequest h = true →
  loadJournal h net doc =
    match net with
    | NetworkFailure => (showError COULD_NOT_LOAD doc, Normal ())
    | Response status body =>
        if status_ok status then
          match body with
          | None => (showError COULD_NOT_READ doc, Normal ())
          | Some data =>
              try_catch (onData h data)
                (fun _ doc => (showError COULD_NOT_READ doc, Normal ())) doc
          end
        else (showError COULD_NOT_LOAD doc, Normal ())
    end.
Proof.
  intros Hf Hx. unfold loadJournal, try_catch. rewrite Hf, Hx.
  destruct net as [|status [data|]]; [done| |]; by destruct (status_ok status).
Qed.

Lemma loadJournal_bare h net doc :
  has_fetch h = false → has_XMLHttpRequest h = false →
  loadJournal h net doc = (doc, Throw ReferenceError).
Proof. intros Hf Hx. unfold loadJournal. by rewrite Hf, Hx. Qed.

Lemma loadJournal_ok h status body doc :
  has_transport h → status_ok status = true →
  loadJournal h (Response status body) doc =
    match body with
    | None => (showError (catch_message h) doc, Normal ())
    | Some data =>
        try_catch (onData h data)
          (fun _ doc => (showError (catch_message h) doc, Normal ())) doc
    end.
Proof.
  intros Ht Hs. unfold catch_message.
  destruct (has_fetch h) eqn:Hf.
  - rewrite loadJournal_fetch by done. by rewrite Hs.
  - destruct Ht as [Ht|Hx]; [congruence|].
    rewrite loadJournal_xhr by done. by rewrite Hs.
Qed.

Lemma loadJournal_transport_failure h net doc :
  has_transport h → transport_failure net →
  loadJournal h net doc = (showError COULD_NOT_LOAD doc, Normal ()).
Proof.
  intros Ht Hn.
  assert (∀ st b, net = Response st b → status_ok st = false) as Hs.
  { intros st b ->. simpl in Hn. destruct (status_ok st) eqn:Hok; [|done].
    by apply status_ok_range in Hok. }
  destruct (has_fetch h) eqn:Hf.
  - rewrite loadJournal_fetch by done.
    destruct net as [|st b]; [done|]. by rewrite (Hs st b eq_refl).
  - destruct Ht as [Ht|Hx]; [congruence|].
    rewrite loadJournal_xhr by done.
    destruct net as [|st b]; [done|]. by rewrite (Hs st b eq_refl).
Qed.

Lemma loadJournal_invalid h status data doc :
  has_transport h → status_ok status = true →
  (∀ entries, ¬ collection_valid data entries) →
  loadJournal h (Response status (Some data)) doc = (showError NO_ENTRIES doc, Normal ()).
Proof.
  intros Ht Hs Hinv. rewrite loadJournal_ok by done.
  unfold try_catch. by rewrite onData_invalid.
Qed.

Lemma loadJournal_valid h status data entries doc :
  has_transport h → status_ok status = true → collection_valid data entries →
  loadJournal h (Response status (Some data)) doc =
    match Array_map (buildCard h) (latest entries) with
    | Normal cards => (append_cards (concat cards) (hide_fallback doc), Normal ())
    | Throw _ => (showError (catch_message h) (hide_fallback doc), Normal ())
    end.
Proof.
  intros Ht Hs Hv. rewrite loadJournal_ok by done.
  unfold try_catch. rewrite (onData_valid _ _ entries) by done.
  unfold renderCards. by destruct (Array_map _ _).
Qed.

(** Every run ends in one of four ways. *)
Lemma loadJournal_outcomes h net doc :
  loadJournal h net doc = (doc, Throw ReferenceError)
  ∨ (∃ message, message ∈ [NO_ENTRIES; COULD_NOT_LOAD; COULD_NOT_READ]
       ∧ loadJournal h net doc = (showError message doc, Normal ()))
  ∨ (∃ message, message ∈ [COULD_NOT_LOAD; COULD_NOT_READ]
       ∧ loadJournal h net doc = (showError message (hide_fallback doc), Normal ()))
  ∨ (∃ cards, loadJournal h net doc = (append_cards cards (hide_fallback doc), Normal ())).
Proof.
  destruct (has_fetch h) eqn:Hf, (has_XMLHttpRequest h) eqn:Hx;
    try (left; by apply loadJournal_bare).
  all: assert (has_transport h) as Ht by (unfold has_transport; tauto).
  all: assert (catch_message h ∈ [COULD_NOT_LOAD; COULD_NOT_READ]) as Hc
         by (unfold catch_message; rewrite Hf; in_list).
  all: assert (catch_message h ∈ [NO_ENTRIES; COULD_NOT_LOAD; COULD_NOT_READ]) as Hc'
         by (by apply list_elem_of_further).
  all: destruct net as [|status body];
    [right; left; exists COULD_NOT_LOAD; split; [in_list|];
     by apply loadJournal_transport_failure|].
  all: destruct (status_ok status) eqn:Hs;
    [|right; left; exists COULD_NOT_LOAD; split; [in_list|];
      apply loadJournal_transport_failure; [done|];
      simpl; rewrite <- status_ok_range; congruence].
  all: destruct body as [data|];
    [|right; left; exists (catch_message h); split; [done|];
      by rewrite loadJournal_ok].
  all: destruct (collection_valid_dec data) as [[entries Hv]|Hinv];
    [|right; left; exists NO_ENTRIES; split; [in_list|];
      by apply loadJournal_invalid].
  all: rewrite (loadJournal_valid _ _ _ entries) by done;
    destruct (Array_map _ _) as [cards|e]; [by repeat right; eexists|].
  all: right; right; left; by exists (catch_message h).
Qed.

Lemma placeholder_content_outcomes h net doc :
  placeholder_content (loadJournal h net doc).1 = placeholder_content doc
  ∨ ∃ message, message ∈ [NO_ENTRIES; COULD_NOT_LOAD; COULD_NOT_READ]
      ∧ placeholder_content (loadJournal h net doc).1 = Some (error_html message).
Proof.
  destruct (doc !! FALLBACK_ID) as [fb|] eqn:Hfb.
  - destruct (loadJournal_outcomes h net doc)
      as [->|[(m & Hm & ->)|[(m & Hm & ->)|(cards & ->)]]]; simpl.
    + by left.
    + right. exists m. split; [done|]. by rewrite showError_content, Hfb.
    + right. exists m. split; [by apply list_elem_of_further|].
      by rewrite showError_content, hide_fallback_lookup, Hfb.
    + left. by rewrite append_cards_content, hide_fallback_content.
  - left. unfold placeholder_content at 2. rewrite Hfb.
    destruct (loadJournal_outcomes h net doc)
      as [->|[(m & Hm & ->)|[(m & Hm & ->)|(cards & ->)]]]; simpl.
    + unfold placeholder_content. by rewrite Hfb.
    + by rewrite showError_content, Hfb.
    + by rewrite showError_content, hide_fallback_lookup, Hfb.
    + rewrite append_cards_content, hide_fallback_content.
      unfold placeholder_content. by rewrite Hfb.
Qed.

(** C3 (as amended): the failures are reported with three messages.  A
    validation failure shows "No journal entries found yet."; a bad status
    and a network error show "Could not load journal entries at this
    time."; a payload that does not decode shows that same message on the
    fetch path and "Could not read journal data." on the XMLHttpRequest
    path; with neither transport the script stops on an uncaught
    ReferenceError and shows nothing.  After any run the placeholder holds
    what it held before or the markup of one of the three messages. *)
Theorem failures_reported h net doc :
  (∀ k, raises h net k →
        loadJournal h net doc =
          match k with
          | TransportUnavailableError => (doc, Throw ReferenceError)
          | HttpStatusError | NetworkError => (showError COULD_NOT_LOAD doc, Normal ())
          | DecodeError => (showError (catch_message h) doc, Normal ())
          | ValidationError => (showError NO_ENTRIES doc, Normal ())
          end)
  ∧ (placeholder_content (loadJournal h net doc).1 = placeholder_content doc
     ∨ ∃ message, message ∈ [NO_ENTRIES; COULD_NOT_LOAD; COULD_NOT_READ]
         ∧ placeholder_content (loadJournal h net doc).1 = Some (error_html message)).
Proof.
  split; [|apply placeholder_content_outcomes].
  intros [] Hk; simpl in Hk.
  - destruct Hk as [Hf Hx]. by apply loadJournal_bare.
  - destruct Hk as (Ht & status & body & -> & Hs).
    apply loadJournal_transport_failure; [done|].
    simpl. rewrite <- status_ok_range. congruence.
  - destruct Hk as (Ht & ->). by apply loadJournal_transport_failure.
  - destruct Hk as (Ht & status & -> & Hs). by rewrite loadJournal_ok.
  - destruct Hk as (Ht & status & data & -> & Hs & Hinv).
    by apply loadJournal_invalid.
Qed.

Lemma failures_reported_witness :
  raises xhr_host (Response 200 None) DecodeError
  ∧ loadJournal xhr_host (Response 200 None) home_page
    = (showError COULD_NOT_READ home_page, Normal ()).
Proof.
  assert (raises xhr_host (Response 200 None) DecodeError) as H.
  { split; [by right|]. by exists 200. }
  split; [exact H|].
  exact (proj1 (failures_reported xhr_host (Response 200 None) home_page) DecodeError H).
Defined.

(** C3 (as stated) fails: on the XMLHttpRequest path a payload that does
    not decode is reported with a third message. *)
Lemma decode_error_third_message :
  ¬ (∀ h net k doc, raises h net k →
       (loadJournal h net doc).1 = showError (claimed_message k) doc).
Proof.
  intros H.
  specialize (H xhr_host (Response 200 None) DecodeError home_page).
  assert (raises xhr_host (Response 200 None) DecodeError) as Hk.
  { split; [by right|]. by exists 200. }
  apply H in Hk. apply (f_equal placeholder_content) in Hk.
  vm_compute in Hk. discriminate.
Qed.

(** C5: a decoded payload whose [entries] is an empty array, is missing or
    is not an array (and a payload that is no object at all) ends in
    [showError] with "No journal entries found yet.", on either transport,
    and that is not the markup of the generic message. *)
Theorem empty_collection_reported h status data doc :
  has_transport h → status_ok status = true →
  match data with
  | JObj props =>
      props !! lit "entries" = Some (JArr [])
      ∨ props !! lit "entries" = None
      ∨ ∃ v, props !! lit "entries" = Some v ∧ ∀ items, v ≠ JArr items
  | _ => True
  end →
  loadJournal h (Response status (Some data)) doc
    = (showError NO_ENTRIES doc, Normal ())
  ∧ placeholder_content (loadJournal h (Response status (Some data)) doc).1
    = (fun _ => error_html NO_ENTRIES) <$> doc !! FALLBACK_ID
  ∧ error_html NO_ENTRIES ≠ error_html COULD_NOT_LOAD.
Proof.
  intros Ht Hs Hp.
  assert (loadJournal h (Response status (Some data)) doc
          = (showError NO_ENTRIES doc, Normal ())) as Hrun.
  { apply loadJournal_invalid; [done..|].
    intros entries (props & -> & Hl & Hne).
    destruct Hp as [Hp|[Hp|(v & Hp & Hv)]]; rewrite Hp in Hl; simplify_eq.
    by apply (Hv entries). }
  split; [done|]. rewrite Hrun. simpl. split; [apply showError_content|].
  vm_compute. discriminate.
Qed.

Lemma empty_collection_reported_witness :
  loadJournal xhr_host (Response 200 (Some (sample_payload []))) home_page
  = (showError NO_ENTRIES home_page, Normal ())
  ∧ loadJournal fetch_host (Response 200 (Some (JObj ∅))) home_page
    = (showError NO_ENTRIES home_page, Normal ()).
Proof.
  split.
  - refine (proj1 (empty_collection_reported xhr_host 200 (sample_payload []) home_page _ _ _)).
    + by right.
    + reflexivity.
    + left. apply lookup_singleton_eq.
  - refine (proj1 (empty_collection_reported fetch_host 200 (JObj ∅) home_page _ _ _)).
    + by left.
    + reflexivity.
    + right. left. apply lookup_empty.
Defined.

Lemma placeholder_display_outcomes h net doc :
  placeholder_display (loadJournal h net doc).1 ≠ placeholder_display doc →
  ∃ status data entries,
    net = Response status (Some data) ∧ status_ok status = true
    ∧ collection_valid data entries.
Proof.
  intros Hd.
  destruct (has_fetch h) eqn:Hf, (has_XMLHttpRequest h) eqn:Hx;
    try (rewrite loadJournal_bare in Hd by done; by destruct Hd).
  all: assert (has_transport h) as Ht by (unfold has_transport; tauto).
  all: destruct net as [|status body];
    [rewrite loadJournal_transport_failure in Hd by done;
     simpl in Hd; by rewrite showError_display in Hd|].
  all: destruct (status_ok status) eqn:Hs;
    [|rewrite loadJournal_transport_failure in Hd;
      [simpl in Hd; by rewrite showError_display in Hd|done|];
      simpl; rewrite <- status_ok_range; congruence].
  all: destruct body as [data|];
    [|rewrite loadJournal_ok in Hd by done;
      simpl in Hd; by rewrite showError_display in Hd].
  all: destruct (collection_valid_dec data) as [[entries Hv]|Hinv];
    [by exists status, data, entries|].
  all: rewrite loadJournal_invalid in Hd by done;
    simpl in Hd; by rewrite showError_display in Hd.
Qed.

(** C6: after a transport failure (an errored call, or a status that is
    not 2xx) the run ends in [showError] with "Could not load journal
    entries at this time." and the [display] style of the placeholder is
    as before; the style changes only in runs whose payload passed the
    check of the collection. *)
Theorem transport_failure_reported h net doc :
  (has_transport h → transport_failure net →
     loadJournal h net doc = (showError COULD_NOT_LOAD doc, Normal ())
     ∧ placeholder_content (loadJournal h net doc).1
       = (fun _ => error_html COULD_NOT_LOAD) <$> doc !! FALLBACK_ID
     ∧ placeholder_display (loadJournal h net doc).1 = placeholder_display doc)
  ∧ (placeholder_display (loadJournal h net doc).1 ≠ placeholder_display doc →
     ∃ status data entries,
       net = Response status (Some data) ∧ status_ok status = true
       ∧ collection_valid data entries).
Proof.
  split; [|apply placeholder_display_outcomes].
  intros Ht Hn. rewrite loadJournal_transport_failure by done. simpl.
  split; [done|]. split; [apply showError_content|apply showError_display].
Qed.

Lemma transport_failure_reported_witness :
  loadJournal fetch_host (Response 404 None) home_page
    = (showError COULD_NOT_LOAD home_page, Normal ())
  ∧ loadJournal xhr_host NetworkFailure home_page
    = (showError COULD_NOT_LOAD home_page, Normal ()).
Proof.
  split.
  - refine (proj1 (proj1 (transport_failure_reported fetch_host (Response 404 None) home_page) _ _)).
    + by left.
    + simpl. lia.
  - refine (proj1 (proj1 (transport_failure_reported xhr_host NetworkFailure home_page) _ _)).
    + by right.
    + exact I.
Defined.

(** C10: the error reporter changes the content of the placeholder and
    nothing else: every other element, the grid among them, and the
    [display] style of the placeholder stay as they were; and a run of the
    script leaves the grid as it was unless it is the run that appends the
    cards. *)
Theorem showError_frame message h net doc :
  (∀ id, id ≠ FALLBACK_ID → showError message doc !! id = doc !! id)
  ∧ showError message doc !! GRID_ID = doc !! GRID_ID
  ∧ placeholder_display (showError message doc) = placeholder_display doc
  ∧ ((loadJournal h net doc).1 !! GRID_ID = doc !! GRID_ID
     ∨ ∃ cards, loadJournal h net doc
                = (append_cards cards (hide_fallback doc), Normal ())).
Proof.
  split; [intros id Hid; by apply showError_lookup_ne|].
  split; [apply showError_lookup_ne, GRID_ID_ne_FALLBACK_ID|].
  split; [apply showError_display|].
  destruct (loadJournal_outcomes h net doc)
    as [->|[(m & Hm & ->)|[(m & Hm & ->)|(cards & ->)]]]; simpl.
  - by left.
  - left. apply showError_lookup_ne, GRID_ID_ne_FALLBACK_ID.
  - left. rewrite showError_lookup_ne by apply GRID_ID_ne_FALLBACK_ID.
    apply hide_fallback_lookup_ne, GRID_ID_ne_FALLBACK_ID.
  - right. by exists cards.
Qed.

Lemma showError_frame_witness :
  GRID_ID ≠ FALLBACK_ID
  ∧ showError NO_ENTRIES home_page !! GRID_ID = home_page !! GRID_ID.
Proof.
  assert (GRID_ID ≠ FALLBACK_ID) as H by (vm_compute; discriminate).
  split; [exact H|].
  exact (proj1 (showError_frame NO_ENTRIES fetch_host NetworkFailure home_page) GRID_ID H).
Defined.

End pipeline.

(** ** Sorting and selecting *)

Section string_order.

Implicit Types (a b c : jsstring).

Lemma str_lt_irrefl a : str_lt a a = false.
Proof. induction a as [|x a IH]; [done|]. simpl. by rewrite N.ltb_irrefl. Qed.

Lemma str_lt_trans a b c :
  str_lt a b = true → str_lt b c = true → str_lt a c = true.
Proof.
  revert b c. induction a as [|x a IH]; intros [|y b] [|z c]; simpl; try done.
  destruct (N.ltb_spec x y), (N.ltb_spec y x), (N.ltb_spec y z),
    (N.ltb_spec z y), (N.ltb_spec x z), (N.ltb_spec z x);
    try done; try lia.
  apply IH.
Qed.

Lemma str_lt_asym a b : str_lt a b = true → str_lt b a = false.
Proof.
  intros Hab. destruct (str_lt b a) eqn:Hba; [|done].
  by rewrite <- (str_lt_irrefl a), <- (str_lt_trans a b a Hab Hba).
Qed.

Lemma str_lt_total a b : str_lt a b = false → str_lt b a = false → a = b.
Proof.
  revert b. induction a as [|x a IH]; intros [|y b]; simpl; try done.
  destruct (N.ltb_spec x y), (N.ltb_spec y x); try done; try lia.
  intros Hab Hba. assert (x = y) as -> by lia. f_equal. by apply IH.
Qed.

Lemma str_ge_trans a b c :
  str_lt a b = false → str_lt b c = false → str_lt a c = false.
Proof.
  intros Hab Hbc. destruct (str_lt a c) eqn:Hac; [|done].
  destruct (str_lt b a) eqn:Hba.
  - by rewrite (str_lt_trans b a c Hba Hac) in Hbc.
  - rewrite (str_lt_total a b Hab Hba) in Hac. congruence.
Qed.

End string_order.

Section selector.

Implicit Types (a b x y : entry) (l entries : list entry).

Lemma sort_insert_perm {A} (cmp : A → A → Z) (x : A) (l : list A) :
  sort_insert cmp x l ≡ₚ x :: l.
Proof.
  induction l as [|y l IH]; [done|]. simpl.
  destruct (cmp x y <=? 0); [done|].
  rewrite IH. apply Permutation_swap.
Qed.

Lemma Array_sort_perm {A} (cmp : A → A → Z) (l : list A) :
  Array_sort cmp l ≡ₚ l.
Proof.
  induction l as [|x l IH]; [done|].
  unfold Array_sort in *. simpl. by rewrite sort_insert_perm, IH.
Qed.

Lemma has_date_get a : has_date a → ∃ s, get a (lit "date") = VString s.
Proof. intros [s Hs]. exists s. unfold get. by rewrite Hs. Qed.

(** With dates on both sides the comparison function puts [a] first
    exactly when [a] is not older than [b]. *)
Lemma compareFn_le a b :
  has_date a → has_date b → (compareFn a b <=? 0) = true ↔ not_older a b.
Proof.
  intros (da & Ha)%has_date_get (db & Hb)%has_date_get.
  unfold compareFn, not_older, js_gt. rewrite Ha, Hb. simpl.
  destruct (str_lt db da) eqn:Hba.
  - split; [|done]. intros _. by apply str_lt_asym.
  - by destruct (str_lt da db).
Qed.

Lemma compareFn_gt a b :
  (compareFn a b <=? 0) = false → not_older b a ∧ get a (lit "date") ≠ get b (lit "date").
Proof.
  unfold compareFn, not_older, js_gt.
  destruct (js_lt (get b _) (get a _)) eqn:Hba; [done|].
  destruct (js_lt (get a _) (get b _)) eqn:Hab; [|done].
  intros _. split; [done|]. intros Heq. rewrite Heq in Hab. congruence.
Qed.

Lemma not_older_trans a b c :
  has_date a → has_date b → has_date c →
  not_older a b → not_older b c → not_older a c.
Proof.
  intros (da & Ha)%has_date_get (db & Hb)%has_date_get (dc & Hc)%has_date_get.
  unfold not_older. rewrite Ha, Hb, Hc. simpl. apply str_ge_trans.
Qed.

Lemma sort_insert_sorted x l :
  has_date x → Forall has_date l →
  StronglySorted not_older l → StronglySorted not_older (sort_insert compareFn x l).
Proof.
  intros Hx Hl Hs. induction Hs as [|y l Hs IH Hy]; simpl.
  - repeat constructor.
  - apply Forall_cons in Hl as [Hdy Hl].
    destruct (compareFn x y <=? 0) eqn:Hc.
    + apply compareFn_le in Hc; [|done..].
      constructor; [by constructor|]. constructor; [done|].
      rewrite Forall_forall in Hy, Hl |- *. intros z Hz.
      eapply (not_older_trans x y z); eauto.
    + constructor; [by apply IH|].
      rewrite sort_insert_perm. constructor; [|done].
      by apply compareFn_gt in Hc as [? _].
Qed.

Lemma sorted_perm entries : sorted entries ≡ₚ entries.
Proof. apply Array_sort_perm. Qed.

Lemma sorted_descending entries :
  Forall has_date entries → StronglySorted not_older (sorted entries).
Proof.
  unfold sorted, Array_sort. induction 1 as [|x l Hx Hl IH]; simpl.
  - constructor.
  - apply sort_insert_sorted; [done| |done].
    fold (Array_sort compareFn l). by rewrite Array_sort_perm.
Qed.

(** Insertion moves an entry only past entries of another date. *)
Lemma sort_insert_stable (d : value) x l :
  filter (fun e => get e (lit "date") = d) (sort_insert compareFn x l)
  = filter (fun e => get e (lit "date") = d) (x :: l).
Proof.
  induction l as [|y l IH]; [done|]. simpl.
  destruct (compareFn x y <=? 0) eqn:Hc; [done|].
  apply compareFn_gt in Hc as [_ Hne].
  rewrite (filter_cons _ y), IH, !(filter_cons _ x), (filter_cons _ y).
  repeat case_decide; congruence.
Qed.

Lemma sorted_stable (d : value) entries :
  filter (fun e => get e (lit "date") = d) (sorted entries)
  = filter (fun e => get e (lit "date") = d) entries.
Proof.
  unfold sorted, Array_sort. induction entries as [|x l IH]; [done|]. simpl.
  rewrite sort_insert_stable, !(filter_cons _ x), IH. done.
Qed.

Lemma not_older_refl a : not_older a a.
Proof.
  unfold not_older. destruct (get a (lit "date")) as [|s]; [done|].
  apply str_lt_irrefl.
Qed.

Lemma not_older_antisym a b :
  has_date a → has_date b → not_older a b → not_older b a →
  get a (lit "date") = get b (lit "date").
Proof.
  intros (da & Ha)%has_date_get (db & Hb)%has_date_get.
  unfold not_older. rewrite Ha, Hb. simpl. intros Hab Hba.
  f_equal. by apply str_lt_total.
Qed.

Lemma elem_of_filter_date x l :
  x ∈ l → x ∈ filter (fun e => get e (lit "date") = get x (lit "date")) l.
Proof. intros Hx. by apply list_elem_of_filter. Qed.

(** Two orderings of the same entries that are both descending and both
    keep the input order among equal dates are the same list. *)
Lemma stable_descending_unique l1 l2 :
  Forall has_date l1 →
  StronglySorted not_older l1 → StronglySorted not_older l2 →
  (∀ d : value, filter (fun e => get e (lit "date") = d) l1
                = filter (fun e => get e (lit "date") = d) l2) →
  l1 = l2.
Proof.
  intros Hd Hs1. revert l2.
  induction Hs1 as [|x t1 Hs1 IH Hx]; intros l2 Hs2 Hf.
  - destruct l2 as [|y t2]; [done|].
    specialize (Hf (get y (lit "date"))).
    rewrite filter_cons_True in Hf by done. done.
  - apply Forall_cons in Hd as [Hdx Hd].
    destruct Hs2 as [|y t2 Hs2 Hy].
    { specialize (Hf (get x (lit "date"))).
      rewrite filter_cons_True in Hf by done. done. }
    assert (x ∈ y :: t2) as Hx2.
    { eapply list_elem_of_filter. rewrite <- (Hf (get x (lit "date"))).
      rewrite filter_cons_True by done. left. }
    assert (y ∈ x :: t1) as Hy1.
    { eapply list_elem_of_filter. rewrite (Hf (get y (lit "date"))).
      rewrite filter_cons_True by done. left. }
    assert (has_date y) as Hdy.
    { apply elem_of_cons in Hy1 as [->|Hy1]; [done|].
      by apply (proj1 (Forall_forall _ _) Hd). }
    assert (not_older y x) as Hyx.
    { apply elem_of_cons in Hx2 as [->|Hx2]; [apply not_older_refl|].
      by apply (proj1 (Forall_forall _ _) Hy). }
    assert (not_older x y) as Hxy.
    { apply elem_of_cons in Hy1 as [->|Hy1]; [apply not_older_refl|].
      by apply (proj1 (Forall_forall _ _) Hx). }
    pose proof (not_older_antisym x y Hdx Hdy Hxy Hyx) as Heq.
    pose proof (Hf (get x (lit "date"))) as Hf0.
    rewrite filter_cons_True in Hf0 by done.
    rewrite (filter_cons_True _ y) in Hf0 by done.
    injection Hf0 as -> Hf0. f_equal. apply IH; [done..|].
    intros d. specialize (Hf d). rewrite !(filter_cons _ y) in Hf.
    case_decide; [by injection Hf|done].
Qed.

(** The model of [sort] is no choice among several: every list that is
    descending and keeps the input order among equal dates is [sorted]. *)
Lemma sorted_unique entries l :
  Forall has_date entries →
  StronglySorted not_older l →
  (∀ d : value, filter (fun e => get e (lit "date") = d) l
                = filter (fun e => get e (lit "date") = d) entries) →
  l = sorted entries.
Proof.
  intros Hd Hs Hf. symmetry.
  apply stable_descending_unique; [|by apply sorted_descending|done|].
  - by rewrite sorted_perm.
  - intros d. by rewrite sorted_stable.
Qed.

Lemma latest_sorted entries :
  latest entries ++ drop MAX_CARDS (sorted entries) = sorted entries.
Proof. apply take_drop. Qed.

(** A collection of up to three entries is selected whole, whatever the
    dates. *)
Lemma latest_small entries :
  (length entries ≤ MAX_CARDS)%nat → latest entries ≡ₚ entries.
Proof.
  intros Hl. unfold latest.
  rewrite take_ge by (by rewrite sorted_perm). apply sorted_perm.
Qed.

(** C2: the selection has [min 3 (length entries)] entries; it is in
    descending order of the date strings; together with the entries left
    out, none of which is newer than a selected one, it is a rearrangement
    of the input, so nothing is added or repeated; and among entries of
    one date the selected ones are the first of the input, in the order of
    the input.  (It holds for the empty collection as well.) *)
Theorem latest_correct (entries : list entry) :
  Forall has_date entries →
  length (latest entries) = min MAX_CARDS (length entries)
  ∧ StronglySorted not_older (latest entries)
  ∧ (∃ rest, entries ≡ₚ latest entries ++ rest
             ∧ Forall (fun r => Forall (fun a => not_older a r) (latest entries)) rest)
  ∧ ∀ d, filter (fun e => get e (lit "date") = d) (latest entries)
         `prefix_of` filter (fun e => get e (lit "date") = d) entries.
Proof.
  intros Hd.
  pose proof (sorted_descending entries Hd) as Hs.
  rewrite <- latest_sorted in Hs. apply StronglySorted_app in Hs as (Hall & Hl & _).
  split; [|split; [done|split]].
  - unfold latest. by rewrite length_take, sorted_perm.
  - exists (drop MAX_CARDS (sorted entries)).
    split; [by rewrite latest_sorted, sorted_perm|].
    rewrite Forall_forall. intros r Hr. rewrite Forall_forall. intros a Ha.
    by apply Hall.
  - intros d. rewrite <- (sorted_stable d entries), <- (latest_sorted entries) at 1.
    rewrite filter_app. by eexists.
Qed.

Lemma sample_entries_dated : Forall has_date sample_entries.
Proof. repeat constructor; by eexists. Qed.

Example latest_sample :
  latest sample_entries
  = [sample_entry "five" "2025-01-05"; sample_entry "two" "2025-01-04";
     sample_entry "four" "2025-01-04"].
Proof. vm_compute. reflexivity. Qed.

Lemma latest_correct_witness :
  Forall has_date sample_entries
  ∧ length (latest sample_entries) = min MAX_CARDS (length sample_entries).
Proof.
  assert (Forall has_date sample_entries) as H.
  { repeat constructor; by eexists. }
  split; [exact H|]. exact (proj1 (latest_correct sample_entries H)).
Defined.

End selector.

(** ** Dates *)

Section calendar.

Lemma DayFromYear_step y : DayFromYear (y + 1) = DayFromYear y + DaysInYear y.
Proof.
  unfold DayFromYear, DaysInYear.
  repeat match goal with |- context [?a =? ?b] => destruct (Z.eqb_spec a b) end;
    simpl; Z.div_mod_to_equations; lia.
Qed.

(** The year of a day is the one whose first day is not after it and
    whose successor's first day is. *)
Lemma YearFromDay_spec d :
  DayFromYear (YearFromDay d) ≤ d < DayFromYear (YearFromDay d + 1).
Proof.
  unfold YearFromDay.
  destruct (Z.ltb_spec d (DayFromYear (1970 + d * 400 / 146097))) as [H1|H1];
    [|destruct (Z.leb_spec (DayFromYear (1970 + d * 400 / 146097 + 1)) d) as [H2|H2]].
  - split.
    + clear H1. unfold DayFromYear. Z.div_mod_to_equations. lia.
    + by replace (1970 + d * 400 / 146097 - 1 + 1) with (1970 + d * 400 / 146097) by lia.
  - split; [done|].
    clear H1 H2. unfold DayFromYear. Z.div_mod_to_equations. lia.
  - done.
Qed.

Lemma DayWithinYear_range t :
  0 ≤ DayWithinYear t < DaysInYear (YearFromTime t).
Proof.
  unfold DayWithinYear, YearFromTime.
  pose proof (YearFromDay_spec (Day t)) as H.
  rewrite DayFromYear_step in H. lia.
Qed.

Lemma MonthFromTime_range t : 0 ≤ MonthFromTime t ≤ 11.
Proof.
  unfold MonthFromTime.
  repeat match goal with |- context [?a <? ?b] => destruct (Z.ltb_spec a b) end; lia.
Qed.

Lemma DateFromTime_range t : 1 ≤ DateFromTime t ≤ 31.
Proof.
  pose proof (DayWithinYear_range t) as Hd.
  unfold DateFromTime, MonthFromTime, InLeapYear in *.
  destruct (Z.eqb_spec (DaysInYear (YearFromTime t)) 366) as [Hl|Hl].
  - rewrite Hl in Hd.
    repeat match goal with |- context [?a <? ?b] => destruct (Z.ltb_spec a b) end; lia.
  - assert (DaysInYear (YearFromTime t) = 365) as Hl'.
    { unfold DaysInYear in *. repeat case_match; lia. }
    rewrite Hl' in Hd.
    repeat match goal with |- context [?a <? ?b] => destruct (Z.ltb_spec a b) end; lia.
Qed.

Lemma DayFromYear_mono y1 y2 : y1 ≤ y2 → DayFromYear y1 ≤ DayFromYear y2.
Proof. intros H. unfold DayFromYear. Z.div_mod_to_equations. lia. Qed.

Lemma YearFromDay_unique d y :
  DayFromYear y ≤ d < DayFromYear (y + 1) → YearFromDay d = y.
Proof.
  intros Hy. pose proof (YearFromDay_spec d) as Hs.
  destruct (Z.lt_trichotomy (YearFromDay d) y) as [Hlt|[Heq|Hgt]]; [|done|].
  - pose proof (DayFromYear_mono (YearFromDay d + 1) y). lia.
  - pose proof (DayFromYear_mono (y + 1) (YearFromDay d)). lia.
Qed.

Lemma DaysInYear_cases y : DaysInYear y = 365 ∨ DaysInYear y = 366.
Proof. unfold DaysInYear. repeat case_match; tauto. Qed.

(** Go through the twelve months of a common and of a leap year, and
    through the comparisons of the month table. *)
Ltac by_month y m :=
  let Hcases := fresh in
  let Hl := fresh in
  assert (m = 1 ∨ m = 2 ∨ m = 3 ∨ m = 4 ∨ m = 5 ∨ m = 6 ∨ m = 7 ∨ m = 8
          ∨ m = 9 ∨ m = 10 ∨ m = 11 ∨ m = 12) as Hcases by lia;
  destruct (DaysInYear_cases y) as [Hl|Hl]; rewrite Hl in *; simpl in *;
  repeat (destruct Hcases as [->|Hcases];
          [simpl in *;
           repeat match goal with
                  | |- context [?a <? ?b] => destruct (Z.ltb_spec a b)
                  end; lia|]);
  subst m; simpl in *;
  repeat match goal with
         | |- context [?a <? ?b] => destruct (Z.ltb_spec a b)
         end; lia.

(** A date of the calendar makes a valid [Date], and the getters give
    back its year, month and day. *)
Lemma Date_calendar y m d :
  calendar_date y m d →
  ∃ t, Date (Some y) (Some (m - 1)) (Some d) = Some t
       ∧ getFullYear t = y ∧ getMonth t = m - 1 ∧ getDate t = d.
Proof.
  intros (Hy & Hm & Hd).
  set (leap := if DaysInYear y =? 366 then 1 else 0).
  set (day := DayFromYear y + DaysBeforeMonth leap (m - 1) + d - 1).
  assert (0 ≤ DaysBeforeMonth leap (m - 1) + d - 1 < DaysInYear y) as Hin.
  { unfold DaysInMonth, leap in *. by_month y m. }
  assert (YearFromDay day = y) as Hyear.
  { apply YearFromDay_unique. rewrite DayFromYear_step. unfold day. lia. }
  assert (Day (day * msPerDay) = day) as Hday.
  { unfold Day, msPerDay. by rewrite Z.div_mul. }
  assert (MakeDay y (m - 1) d = day) as Hmake.
  { unfold MakeDay, day, leap.
    replace ((m - 1) / 12) with 0 by (Z.div_mod_to_equations; lia).
    replace ((m - 1) mod 12) with (m - 1) by (Z.div_mod_to_equations; lia).
    by rewrite Z.add_0_r. }
  exists (day * msPerDay). split; [|split; [|split]].
  - unfold Date. destruct (Z.leb_spec 0 y), (Z.leb_spec y 99); simpl; try lia.
    rewrite Hmake. unfold MakeDate, TimeClip. rewrite Z.add_0_r.
    destruct (Z.leb_spec (Z.abs (day * msPerDay)) 8640000000000000) as [|Hbig]; [done|].
    exfalso. pose proof (DayFromYear_mono 100 y). pose proof (DayFromYear_mono y 275759).
    pose proof (DaysInYear_cases y).
    assert (DayFromYear 100 = -683003) by reflexivity.
    assert (DayFromYear 275759 = 99999379) by reflexivity.
    unfold msPerDay in Hbig. unfold day in Hbig. lia.
  - unfold getFullYear, YearFromTime. by rewrite Hday.
  - unfold getMonth, MonthFromTime, DayWithinYear, InLeapYear, YearFromTime.
    rewrite Hday, Hyear. fold leap. unfold day.
    replace (DayFromYear y + DaysBeforeMonth leap (m - 1) + d - 1 - DayFromYear y)
      with (DaysBeforeMonth leap (m - 1) + d - 1) by lia.
    unfold DaysInMonth, leap in *. by_month y m.
  - unfold getDate, DateFromTime, MonthFromTime, DayWithinYear, InLeapYear, YearFromTime.
    rewrite Hday, Hyear. fold leap. unfold day.
    replace (DayFromYear y + DaysBeforeMonth leap (m - 1) + d - 1 - DayFromYear y)
      with (DaysBeforeMonth leap (m - 1) + d - 1) by lia.
    unfold DaysInMonth, leap in *. by_month y m.
Qed.

(** On the fallback path a date of the calendar comes out as its day,
    the abbreviation of its month and its year. *)
Lemma manual_format_calendar y m d t :
  calendar_date y m d →
  Date (Some y) (Some (m - 1)) (Some d) = Some t →
  manual_format t
  = NumberToString d ++ lit " "
    ++ ToString (index months (m - 1)) ++ lit " " ++ NumberToString y.
Proof.
  intros Hc Ht. destruct (Date_calendar y m d Hc) as (t' & Ht' & Hy & Hm & Hd).
  rewrite Ht in Ht'. injection Ht' as <-.
  unfold manual_format. by rewrite Hy, Hm, Hd.
Qed.

End calendar.

Section format.

Implicit Types (h : host) (s : jsstring).

Lemma split_length sep s : length (split sep s) = S (occurrences sep s).
Proof.
  unfold occurrences. induction s as [|c s IH]; [done|]. simpl.
  destruct (N.eqb_spec c sep) as [->|Hne].
  - rewrite filter_cons_True by done. simpl. by rewrite IH.
  - rewrite filter_cons_False by done.
    destruct (split sep s); [done|]. by rewrite <- IH.
Qed.

Lemma digits_no_dash u : occurrences DASH (digits u) = 0%nat.
Proof.
  unfold occurrences. induction u; simpl; [done|..];
    by rewrite filter_cons_False.
Qed.

Lemma NumberToString_dashes n :
  (occurrences DASH (NumberToString n) ≤ 1)%nat
  ∧ (0 ≤ n → occurrences DASH (NumberToString n) = 0%nat).
Proof.
  unfold NumberToString. destruct n as [|p|p]; simpl.
  - split; [|done]. vm_compute. lia.
  - rewrite digits_no_dash. split; [lia|done].
  - split; [|lia]. unfold occurrences. rewrite filter_cons_True by done.
    simpl. fold (occurrences DASH (digits (Pos.to_uint p))).
    by rewrite digits_no_dash.
Qed.

Lemma months_no_dash (i : Z) :
  occurrences DASH (ToString (index months i)) = 0%nat.
Proof.
  unfold index. destruct (i <? 0); [reflexivity|].
  generalize (Z.to_nat i). intros n.
  do 12 (destruct n as [|n]; [reflexivity|]). reflexivity.
Qed.

Lemma manual_format_dashes t : (occurrences DASH (manual_format t) ≤ 1)%nat.
Proof.
  unfold manual_format. rewrite !occurrences_app, months_no_dash.
  pose proof (DateFromTime_range t) as Hd.
  rewrite (proj2 (NumberToString_dashes (getDate t))) by (unfold getDate; lia).
  pose proof (proj1 (NumberToString_dashes (getFullYear t))) as Hy.
  change (occurrences DASH (lit " ")) with 0%nat. lia.
Qed.

Lemma formatDate_parts h s p0 p1 p2 rest :
  split DASH s = p0 :: p1 :: p2 :: rest →
  formatDate h (VString s) =
    match Date (parseInt p0) (minus_one (parseInt p1)) (parseInt p2) with
    | None => Normal s
    | Some t => Normal (formatted h t)
    end.
Proof.
  intros Hs. unfold formatDate, formatted, index. rewrite Hs. simpl.
  by destruct (Date _ _ _), (Intl_format h).
Qed.

Lemma formatDate_few_parts h s :
  (length (split DASH s) < 3)%nat → formatDate h (VString s) = Normal s.
Proof.
  intros Hl. unfold formatDate.
  by destruct (Nat.ltb_spec (length (split DASH s)) 3); [|lia].
Qed.

(** [formatDate] throws on a date that is not there, and only then. *)
Lemma formatDate_total h (iso : value) :
  (iso = VUndefined ∧ formatDate h iso = Throw TypeError)
  ∨ (∃ s out, iso = VString s ∧ formatDate h iso = Normal out).
Proof.
  destruct iso as [|s]; [by left|]. right. exists s.
  destruct (split DASH s) as [|p0 [|p1 [|p2 rest]]] eqn:Hs;
    try (eexists; split; [done|]; apply formatDate_few_parts; rewrite Hs; simpl; lia).
  rewrite (formatDate_parts h s p0 p1 p2 rest Hs).
  destruct (Date _ _ _); by eexists.
Qed.

Lemma formatDate_valid_date h s y m d t :
  date_components s y m d →
  Date (Some y) (Some (m - 1)) (Some d) = Some t →
  formatDate h (VString s) = Normal (formatted h t) ∧ manual_format t ≠ s.
Proof.
  intros (p0 & p1 & p2 & rest & Hs & H0 & H1 & H2) Ht.
  rewrite (formatDate_parts h s p0 p1 p2 rest Hs), H0, H1, H2.
  simpl minus_one. rewrite Ht. split; [done|].
  intros Heq. pose proof (manual_format_dashes t) as Hm.
  pose proof (split_length DASH s) as Hl.
  rewrite Hs, <- Heq in Hl. simpl in Hl. lia.
Qed.

(** C4 (as amended): when the string splits at its dashes into at least
    three components, [parseInt] reads a number off each of the first
    three, and the three make a valid date, [formatDate] returns that date
    formatted, which on the fallback path is never the raw string; in
    every other case (fewer than three dash-delimited components, as in
    "2025.02.15"; a component that does not start with a number, as in
    "not-a-date"; a date out of range, as in "999999-01-01") it returns
    the raw string as it is. *)
Theorem formatDate_verbatim_or_formatted h s :
  (∀ y m d t, date_components s y m d →
      Date (Some y) (Some (m - 1)) (Some d) = Some t →
      formatDate h (VString s) = Normal (formatted h t) ∧ manual_format t ≠ s)
  ∧ ((∀ y m d, date_components s y m d →
        Date (Some y) (Some (m - 1)) (Some d) = None) →
     formatDate h (VString s) = Normal s).
Proof.
  split; [intros y m d t; apply formatDate_valid_date|].
  intros Hnone.
  destruct (split DASH s) as [|p0 [|p1 [|p2 rest]]] eqn:Hs;
    try (apply formatDate_few_parts; rewrite Hs; simpl; lia).
  rewrite (formatDate_parts h s p0 p1 p2 rest Hs).
  destruct (parseInt p0) as [y|] eqn:H0; [|done].
  destruct (parseInt p1) as [m|] eqn:H1; [|done].
  destruct (parseInt p2) as [d|] eqn:H2; [|done].
  simpl minus_one. rewrite (Hnone y m d); [done|].
  by exists p0, p1, p2, rest.
Qed.

Lemma formatDate_verbatim_or_formatted_witness :
  date_components (lit "2025-02-15") 2025 2 15
  ∧ Date (Some 2025) (Some (2 - 1)) (Some 15) = Some 1739577600000
  ∧ formatDate xhr_host (VString (lit "2025-02-15")) = Normal (lit "15 Feb 2025").
Proof.
  assert (date_components (lit "2025-02-15") 2025 2 15) as Hc.
  { by exists (lit "2025"), (lit "02"), (lit "15"), []. }
  assert (Date (Some 2025) (Some (2 - 1)) (Some 15) = Some 1739577600000) as Ht.
  { reflexivity. }
  split; [exact Hc|]. split; [exact Ht|].
  exact (proj1 (proj1 (formatDate_verbatim_or_formatted xhr_host (lit "2025-02-15"))
                  2025 2 15 1739577600000 Hc Ht)).
Defined.

(** C4 (as stated) fails: "999999-01-01" has three numeric components and
    comes back as it is, the year being out of the range of [Date]. *)
Lemma formatDate_out_of_range_verbatim :
  ¬ (∀ h s, three_numeric_components s → formatDate h (VString s) ≠ Normal s).
Proof.
  intros H. apply (H fetch_host (lit "999999-01-01")).
  - exists (lit "999999"), (lit "01"), (lit "01"), [].
    split; [reflexivity|]. split; [|split]; by eexists.
  - vm_compute. reflexivity.
Qed.

Example formatDate_not_a_date h :
  formatDate h (VString (lit "not-a-date")) = Normal (lit "not-a-date").
Proof. by rewrite (formatDate_parts h _ (lit "not") (lit "a") (lit "date") []). Qed.

Example formatDate_dotted h :
  three_numeric_components (lit "2025.02.15")
  ∧ formatDate h (VString (lit "2025.02.15")) = Normal (lit "2025.02.15").
Proof.
  split; [|by apply formatDate_few_parts; vm_compute; lia].
  exists (lit "2025"), (lit "02"), (lit "15"), [].
  split; [reflexivity|]. split; [|split]; by eexists.
Qed.

(** The fallback path on the date of the header comment. *)
Example formatDate_fallback_2025_02_15 h :
  Intl_format h = None →
  formatDate h (VString (lit "2025-02-15")) = Normal (lit "15 Feb 2025").
Proof.
  intros Hi.
  rewrite (formatDate_parts h _ (lit "2025") (lit "02") (lit "15") []) by done.
  unfold formatted. by rewrite Hi.
Qed.


(** The primary path returns what the formatter of the host returns. *)
Lemma formatDate_primary h format :
  Intl_format h = Some format →
  formatDate h (VString (lit "2025-02-15")) = Normal (format 1739577600000).
Proof.
  intros Hi.
  rewrite (formatDate_parts h _ (lit "2025") (lit "02") (lit "15") []) by done.
  unfold formatted. by rewrite Hi.
Qed.

End format.

(** ** Cards *)

Section cards.

Implicit Types (h : host) (e : entry) (doc : document).

(** Two property names differ. *)
Ltac key_ne := let H := fresh in intros H; vm_compute in H; discriminate H.

Lemma get_insert_eq e k v : get (<[k := v]> e) k = VString v.
Proof. unfold get. by rewrite lookup_insert_eq. Qed.

Lemma get_insert_ne e k v k' : k ≠ k' → get (<[k := v]> e) k' = get e k'.
Proof. intros Hk. unfold get. by rewrite lookup_insert_ne. Qed.

Lemma get_None e k : e !! k = None → get e k = VUndefined.
Proof. unfold get. by intros ->. Qed.

Lemma buildCard_total h e : has_date e → ∃ card, buildCard h e = Normal card.
Proof.
  intros (s & Hs)%has_date_get. unfold buildCard. rewrite Hs.
  destruct (formatDate_total h (VString s)) as [[? _]|(s' & out & _ & ->)]; [done|].
  by eexists.
Qed.

Lemma buildCard_no_date h e : e !! lit "date" = None → buildCard h e = Throw TypeError.
Proof. intros He. unfold buildCard. by rewrite (get_None e _ He). Qed.

Lemma Array_map_total {A B} (f : A → completion B) (l : list A) :
  Forall (fun x => ∃ y, f x = Normal y) l → ∃ ys, Array_map f l = Normal ys.
Proof.
  induction 1 as [|x l [y Hy] _ [ys IH]]; [by eexists|].
  simpl. rewrite Hy, IH. by eexists.
Qed.

Lemma latest_Forall (P : entry → Prop) entries :
  Forall P entries → Forall P (latest entries).
Proof.
  intros HP. unfold latest. apply Forall_take. by rewrite sorted_perm.
Qed.

(** A required text that is not there is rendered as the text
    "undefined". *)
Lemma buildCard_missing_text h e k :
  k ∈ [lit "title"; lit "excerpt"; lit "category"; lit "url"] →
  e !! k = None →
  buildCard h e = buildCard h (<[k := lit "undefined"]> e).
Proof.
  intros Hk He. apply get_None in He.
  repeat (apply elem_of_cons in Hk as [->|Hk];
          [unfold buildCard;
           rewrite !get_insert_eq, ?get_insert_ne by key_ne;
           by rewrite He|]).
  by apply elem_of_nil in Hk.
Qed.

(** A read time that is not there is rendered like an empty one: its
    element is left out. *)
Lemma buildCard_missing_readTime h e :
  e !! lit "readTime" = None →
  buildCard h e = buildCard h (<[lit "readTime" := []]> e).
Proof.
  intros He%get_None. unfold buildCard.
  rewrite !get_insert_eq, ?get_insert_ne by key_ne. by rewrite He.
Qed.

Lemma escapeHtml_rendered e k : escapeHtml (get e k) = rendered_text e k.
Proof. unfold get, rendered_text. by destruct (e !! k). Qed.

Lemma escapeHtml_cons_nonempty c s : escapeHtml (VString (c :: s)) ≠ [].
Proof.
  rewrite escapeHtml_entities. simpl. intros [H _]%app_eq_nil.
  destruct (special_cases c) as [->|[->|[->|[->|[->|Hc]]]]];
    try (vm_compute in H; discriminate H).
  by rewrite entity_plain in H.
Qed.

(** The read-time part of the template is the element, or nothing. *)
Lemma read_time_rendered e :
  (if ToBoolean (VString (if ToBoolean (get e (lit "readTime"))
                          then escapeHtml (get e (lit "readTime")) else []))
   then markup "<span class=`card__read-time`>"
        ++ (if ToBoolean (get e (lit "readTime"))
            then escapeHtml (get e (lit "readTime")) else [])
        ++ lit "</span>"
   else [])
  = read_time_element e.
Proof.
  unfold get, read_time_element.
  destruct (e !! lit "readTime") as [[|c s]|]; [done| |done].
  cbn [ToBoolean].
  pose proof (escapeHtml_cons_nonempty c s) as Hne.
  by destruct (escapeHtml (VString (c :: s))).
Qed.

(** The card of an entry, part by part. *)
Lemma buildCard_card h e shown :
  formatDate h (get e (lit "date")) = Normal shown →
  buildCard h e
  = Normal (card_of (rendered_text e (lit "category")) (rendered_text e (lit "url"))
              (rendered_text e (lit "title")) (rendered_text e (lit "excerpt"))
              (rendered_text e (lit "date")) shown (read_time_element e)).
Proof.
  intros Hf. unfold buildCard. rewrite Hf.
  unfold mbind, completion_bind. cbv beta iota zeta.
  rewrite read_time_rendered, !escapeHtml_rendered. reflexivity.
Qed.

(** C7 (as amended): once the collection has passed its check nothing
    looks at the fields of an entry before rendering.  When every entry
    has a date, rendering completes: the cards are appended, the
    placeholder is hidden and keeps its content, and no error is
    reported; a title, excerpt, category or url that is not there is
    rendered as the text "undefined", and a read time that is not there
    leaves its element out.  The last conjuncts give the card itself:
    each text is the escaped field or "undefined", and the read-time
    element is there only for a read time that is not empty. *)
Theorem missing_fields_rendered h status data entries doc :
  has_transport h → status_ok status = true →
  collection_valid data entries → Forall has_date entries →
  (∃ cards,
      Array_map (buildCard h) (latest entries) = Normal cards
      ∧ loadJournal h (Response status (Some data)) doc
        = (append_cards (concat cards) (hide_fallback doc), Normal ()))
  ∧ placeholder_content (loadJournal h (Response status (Some data)) doc).1
    = placeholder_content doc
  ∧ (∀ e k, k ∈ [lit "title"; lit "excerpt"; lit "category"; lit "url"] →
            e !! k = None →
            buildCard h e = buildCard h (<[k := lit "undefined"]> e))
  ∧ (∀ e, e !! lit "readTime" = None →
          buildCard h e = buildCard h (<[lit "readTime" := []]> e))
  ∧ (∀ e, has_date e →
          ∃ shown,
            formatDate h (get e (lit "date")) = Normal shown
            ∧ buildCard h e
              = Normal (card_of (rendered_text e (lit "category"))
                          (rendered_text e (lit "url"))
                          (rendered_text e (lit "title"))
                          (rendered_text e (lit "excerpt"))
                          (rendered_text e (lit "date")) shown
                          (read_time_element e)))
  ∧ (∀ e k, e !! k = None → rendered_text e k = lit "undefined")
  ∧ (∀ e, e !! lit "readTime" = None → read_time_element e = []).
Proof.
  intros Ht Hs Hv Hd.
  destruct (Array_map_total (buildCard h) (latest entries)) as [cards Hcards].
  { apply latest_Forall. eapply Forall_impl; [exact Hd|]. apply buildCard_total. }
  assert (loadJournal h (Response status (Some data)) doc
          = (append_cards (concat cards) (hide_fallback doc), Normal ())) as Hrun.
  { rewrite (loadJournal_valid h status data entries) by done. by rewrite Hcards. }
  split; [by exists cards|]. split.
  { rewrite Hrun. simpl. by rewrite append_cards_content, hide_fallback_content. }
  split; [apply buildCard_missing_text|].
  split; [apply buildCard_missing_readTime|].
  split; [|split].
  - intros e (s & Hs')%has_date_get.
    destruct (formatDate_total h (get e (lit "date")))
      as [[Hu _]|(s' & shown & _ & Hf)]; [congruence|].
    exists shown. split; [done|]. by apply buildCard_card.
  - intros e k He. unfold rendered_text. by rewrite He.
  - intros e He. unfold read_time_element. by rewrite He.
Qed.

Lemma missing_fields_rendered_witness :
  placeholder_content
    (loadJournal fetch_host (Response 200 (Some (sample_payload [untitled_entry]))) home_page).1
  = placeholder_content home_page
  ∧ buildCard fetch_host untitled_entry
    = buildCard fetch_host (<[lit "title" := lit "undefined"]> untitled_entry)
  ∧ ∃ shown,
      formatDate fetch_host (get untitled_entry (lit "date")) = Normal shown
      ∧ buildCard fetch_host untitled_entry
        = Normal (card_of (rendered_text untitled_entry (lit "category"))
                    (rendered_text untitled_entry (lit "url"))
                    (lit "undefined")
                    (rendered_text untitled_entry (lit "excerpt"))
                    (rendered_text untitled_entry (lit "date")) shown
                    []).
Proof.
  assert (has_transport fetch_host) as Ht by (by left).
  assert (status_ok 200 = true) as Hs by reflexivity.
  assert (collection_valid (sample_payload [untitled_entry]) [untitled_entry]) as Hv.
  { eexists. split; [reflexivity|]. split; [apply lookup_singleton_eq|done]. }
  assert (Forall has_date [untitled_entry]) as Hd.
  { repeat constructor. by eexists. }
  assert (has_date untitled_entry) as Hdate by (by eexists).
  pose proof (missing_fields_rendered fetch_host 200 _ _ home_page Ht Hs Hv Hd)
    as (_ & Hc & Hu & _ & Hcard & Htext & Hrt).
  split; [exact Hc|]. split; [apply Hu; [in_list|reflexivity]|].
  destruct (Hcard untitled_entry Hdate) as (shown & Hf & Hb).
  exists shown. split; [exact Hf|].
  rewrite <- (Htext untitled_entry (lit "title") eq_refl).
  rewrite <- (Hrt untitled_entry eq_refl). exact Hb.
Defined.

Lemma Array_map_throw {A B} (f : A → completion B) (l : list A) :
  Exists (fun x => ∃ err, f x = Throw err) l → ∃ err, Array_map f l = Throw err.
Proof.
  induction 1 as [x l [err He]|x l _ [err IH]]; simpl.
  - rewrite He. by eexists.
  - destruct (f x); simpl; [rewrite IH|]; by eexists.
Qed.

(** An entry without a date among the selected ones ends the run in the
    handler that catches: [formatDate] throws on it after the placeholder
    was hidden.  (With dates missing the comparison function is no order,
    and which entries an engine selects is its own affair; up to three
    entries are selected whole, see [latest_small].) *)
Lemma missing_date_outcome h status data entries doc :
  has_transport h → status_ok status = true → collection_valid data entries →
  Exists (fun e => e !! lit "date" = None) (latest entries) →
  loadJournal h (Response status (Some data)) doc
  = (showError (catch_message h) (hide_fallback doc), Normal ()).
Proof.
  intros Ht Hs Hv Hex.
  rewrite (loadJournal_valid h status data entries) by done.
  destruct (Array_map_throw (buildCard h) (latest entries)) as [err ->]; [|done].
  eapply Exists_impl; [exact Hex|]. intros x Hx. exists TypeError.
  by apply buildCard_no_date.
Qed.

(** C7 (as stated) fails: an entry without a date passes the check of the
    collection and the run ends with an error in the placeholder. *)
Lemma missing_date_reported :
  ¬ (∀ h status data entries doc,
       has_transport h → status_ok status = true → collection_valid data entries →
       placeholder_content (loadJournal h (Response status (Some data)) doc).1
       = placeholder_content doc).
Proof.
  intros H.
  assert (collection_valid (sample_payload [undated_entry]) [undated_entry]) as Hv.
  { eexists. split; [reflexivity|]. split; [apply lookup_singleton_eq|done]. }
  specialize (H xhr_host 200 _ _ home_page (or_intror eq_refl) eq_refl Hv).
  rewrite (missing_date_outcome xhr_host 200 _ [undated_entry]) in H;
    [|by right|done|done|by constructor].
  vm_compute in H. discriminate H.
Qed.

(** Five dated entries: the three newest are appended to the grid, newest
    first, and the placeholder is hidden with its content as it was. *)
Example loadJournal_sample :
  (loadJournal fetch_host (Response 200 (Some (sample_payload sample_entries))) home_page).1
  = <[GRID_ID := {| innerHTML := sample_card "five" "2025-01-05" "5 Jan 2025"
                                 ++ sample_card "two" "2025-01-04" "4 Jan 2025"
                                 ++ sample_card "four" "2025-01-04" "4 Jan 2025";
                    display := [] |}]>
    (<[FALLBACK_ID := {| innerHTML := lit "<p>Loading journal entries</p>";
                         display := lit "none" |}]> ∅).
Proof. vm_compute. reflexivity. Qed.

(** A host with neither transport: the script stops where it asks for
    [XMLHttpRequest], and the page stays as it was. *)
Example loadJournal_bare_host net :
  loadJournal bare_host net home_page = (home_page, Throw ReferenceError).
Proof. reflexivity. Qed.

(** On a page without the grid the script does nothing. *)
Lemma main_without_grid h net doc :
  doc !! GRID_ID = None → main h net doc = (doc, Normal ()).
Proof. unfold main. by intros ->. Qed.

(** The text of the date is not escaped on its way into the card: a date
    that [formatDate] returns as it is reaches the markup raw, next to its
    escaped copy in the [datetime] attribute. *)
Example buildCard_date_text_raw :
  buildCard fetch_host (<[lit "date" := lit "<b>"]> (sample_entry "one" "2025-01-01"))
  = Normal (markup
      ("<li class=`card`><span class=`card__category`>UX Research</span>"
       ++ "<h3 class=`card__title`><a href=`journal/entry-slug.html`>one</a></h3>"
       ++ "<p class=`card__excerpt`>Short summary text.</p>"
       ++ "<div class=`card__meta`>"
       ++ "<time class=`card__date` datetime=`&lt;b&gt;`><b></time>"
       ++ "</div></li>")).
Proof. vm_compute. reflexivity. Qed.

End cards.

(** * Further properties *)

(** ** The comparison function and the order of the input *)

Section order.

Implicit Types (a b c : entry) (entries : list entry).

Lemma compareFn_opp a b : compareFn a b = - compareFn b a.
Proof.
  unfold compareFn, js_gt.
  destruct (get a (lit "date")) as [|da], (get b (lit "date")) as [|db]; simpl; try done.
  destruct (str_lt db da) eqn:Hba, (str_lt da db) eqn:Hab; try done.
  by rewrite (str_lt_asym _ _ Hba) in Hab.
Qed.

Lemma compareFn_zero a b :
  has_date a → has_date b →
  compareFn a b = 0 ↔ get a (lit "date") = get b (lit "date").
Proof.
  intros (da & Ha)%has_date_get (db & Hb)%has_date_get.
  unfold compareFn, js_gt. rewrite Ha, Hb. simpl. split.
  - destruct (str_lt db da) eqn:Hba; [done|].
    destruct (str_lt da db) eqn:Hab; [done|].
    intros _. f_equal. by apply str_lt_total.
  - intros [= ->]. by rewrite str_lt_irrefl.
Qed.

(** X1: on entries that have a date the comparison function is a
    consistent one: swapping the arguments flips the sign, it is 0
    exactly on equal dates, and "not after" is transitive. *)
Theorem compareFn_consistent a b c :
  compareFn a b = - compareFn b a
  ∧ (has_date a → has_date b →
     (compareFn a b = 0 ↔ get a (lit "date") = get b (lit "date")))
  ∧ (has_date a → has_date b → has_date c →
     compareFn a b ≤ 0 → compareFn b c ≤ 0 → compareFn a c ≤ 0).
Proof.
  split; [apply compareFn_opp|]. split; [apply compareFn_zero|].
  intros Ha Hb Hc Hab Hbc.
  apply Z.leb_le, compareFn_le in Hab; [|done..].
  apply Z.leb_le, compareFn_le in Hbc; [|done..].
  apply Z.leb_le, compareFn_le; [done..|].
  by apply (not_older_trans a b c).
Qed.

Lemma compareFn_consistent_witness :
  has_date (sample_entry "one" "2025-01-01")
  ∧ has_date (sample_entry "two" "2025-01-04")
  ∧ (compareFn (sample_entry "one" "2025-01-01") (sample_entry "two" "2025-01-04") = 0
     ↔ get (sample_entry "one" "2025-01-01") (lit "date")
       = get (sample_entry "two" "2025-01-04") (lit "date")).
Proof.
  assert (has_date (sample_entry "one" "2025-01-01")) as H1 by (by eexists).
  assert (has_date (sample_entry "two" "2025-01-04")) as H2 by (by eexists).
  split; [exact H1|]. split; [exact H2|].
  exact (proj1 (proj2 (compareFn_consistent _ _ (sample_entry "one" "2025-01-01"))) H1 H2).
Defined.

(** X2: a collection that is already newest-first is left in its order,
    so the first three entries of the input are the ones rendered. *)
Theorem sorted_newest_first entries :
  Forall has_date entries → StronglySorted not_older entries →
  sorted entries = entries ∧ latest entries = take MAX_CARDS entries.
Proof.
  intros Hd Hs.
  assert (sorted entries = entries) as Heq.
  { symmetry. by apply sorted_unique. }
  split; [done|]. unfold latest. by rewrite Heq.
Qed.

Lemma sorted_newest_first_witness :
  latest [sample_entry "two" "2025-01-04"; sample_entry "one" "2025-01-01"]
  = take MAX_CARDS [sample_entry "two" "2025-01-04"; sample_entry "one" "2025-01-01"].
Proof.
  refine (proj2 (sorted_newest_first
            [sample_entry "two" "2025-01-04"; sample_entry "one" "2025-01-01"] _ _)).
  - repeat constructor; by eexists.
  - repeat constructor.
Defined.

Lemma filter_date_short (d : value) entries :
  NoDup (map (fun e => get e (lit "date")) entries) →
  (length (filter (fun e => get e (lit "date") = d) entries) ≤ 1)%nat.
Proof.
  induction entries as [|e entries IH]; simpl; [lia|].
  intros [Hnotin Hnd]%NoDup_cons. rewrite filter_cons. case_decide as He.
  - simpl. destruct (filter _ entries) as [|x l] eqn:Hf; [simpl; lia|].
    exfalso. apply Hnotin.
    assert (x ∈ filter (fun e => get e (lit "date") = d) entries) as Hx.
    { rewrite Hf. left. }
    apply list_elem_of_filter in Hx as [Hxd Hx].
    apply list_elem_of_fmap. exists x. split; [congruence|done].
  - by apply IH.
Qed.

Lemma Permutation_short {A} (l l' : list A) :
  l ≡ₚ l' → (length l ≤ 1)%nat → l = l'.
Proof.
  intros Hp Hl. destruct l as [|x [|y l]]; simpl in Hl; [| |lia].
  - by apply Permutation_nil_l in Hp.
  - by apply Permutation_singleton_l in Hp.
Qed.

(** X3: when no two entries share a date, the order of the entries in
    journal.json does not matter: any rearrangement of the collection
    gives the same selection. *)
Theorem latest_order_independent entries entries' :
  Forall has_date entries → entries ≡ₚ entries' →
  NoDup (map (fun e => get e (lit "date")) entries) →
  latest entries = latest entries'.
Proof.
  intros Hd Hp Hnd. unfold latest. f_equal.
  apply sorted_unique.
  - by rewrite <- Hp.
  - by apply sorted_descending.
  - intros d. rewrite sorted_stable.
    apply Permutation_short; [by rewrite Hp|by apply filter_date_short].
Qed.

Lemma latest_order_independent_witness :
  latest [sample_entry "one" "2025-01-01"; sample_entry "two" "2025-01-04"]
  = latest [sample_entry "two" "2025-01-04"; sample_entry "one" "2025-01-01"].
Proof.
  refine (latest_order_independent _ _ _ _ _).
  - repeat constructor; by eexists.
  - apply Permutation_swap.
  - vm_compute. repeat constructor; rewrite ?elem_of_cons, ?elem_of_nil; intros H;
      repeat destruct H as [H|H]; try discriminate H; done.
Defined.

End order.

(** ** What the script does to the page *)

Section page.

Implicit Types (h : host) (net : network) (doc : document) (entries : list entry).

Lemma append_cards_lookup html doc :
  append_cards html doc !! GRID_ID
  = insertAdjacentHTML_beforeend html <$> doc !! GRID_ID.
Proof. unfold append_cards. by rewrite lookup_alter_eq. Qed.

Lemma Array_map_Throw_inv {A B} (f : A → completion B) (l : list A) err :
  Array_map f l = Throw err → ∃ x, x ∈ l ∧ f x = Throw err.
Proof.
  induction l as [|x l IH]; [done|]. simpl.
  destruct (f x) as [y|err'] eqn:Hx; simpl.
  - destruct (Array_map f l) as [ys|err'] eqn:Hl; [done|]. simpl.
    intros [= ->]. destruct IH as (x' & Hin & Hx'); [done|].
    exists x'. split; [by right|done].
  - intros [= ->]. exists x. split; [left|done].
Qed.

Lemma Array_map_Normal_inv {A B} (f : A → completion B) (l : list A) ys :
  Array_map f l = Normal ys → Forall2 (fun x y => f x = Normal y) l ys.
Proof.
  revert ys. induction l as [|x l IH]; intros ys; simpl.
  - intros [= <-]. constructor.
  - destruct (f x) as [y|] eqn:Hx; [|done]. simpl.
    destruct (Array_map f l) as [ys'|]; [|done]. simpl.
    intros [= <-]. constructor; [done|]. by apply IH.
Qed.

Lemma buildCard_Throw_inv h e err :
  buildCard h e = Throw err → err = TypeError ∧ undated e.
Proof.
  unfold buildCard, undated, get.
  destruct (e !! lit "date") as [s|] eqn:He.
  - destruct (formatDate_total h (VString s)) as [[? _]|(s' & out & _ & ->)]; done.
  - simpl. by intros [= <-].
Qed.

Lemma latest_small_undated entries :
  (length entries ≤ MAX_CARDS)%nat → Exists undated entries →
  Exists undated (latest entries).
Proof.
  intros Hl (e & Hin & He)%Exists_exists. apply Exists_exists.
  exists e. split; [|done]. by rewrite (latest_small entries Hl).
Qed.

(** X4: in a collection of at most three entries, all of which are
    selected, one entry without a date makes [renderCards] throw a
    TypeError, and by then the placeholder is hidden and the grid
    untouched; in a collection whose entries all have a date it does not
    throw and appends one card for each selected entry, in the order of
    the selection. *)
Theorem renderCards_throws h entries doc :
  ((length entries ≤ MAX_CARDS)%nat → Exists undated entries →
     renderCards h entries doc = (hide_fallback doc, Throw TypeError))
  ∧ (Forall has_date entries →
     ∃ cards,
       Forall2 (fun e card => buildCard h e = Normal card) (latest entries) cards
       ∧ renderCards h entries doc
         = (append_cards (concat cards) (hide_fallback doc), Normal ())).
Proof.
  split.
  - intros Hl Hex. pose proof (latest_small_undated entries Hl Hex) as Hex'.
    destruct (renderCards_cases h entries doc)
      as [(err & Hmap & ->)|(cards & Hmap & _)].
    + apply Array_map_Throw_inv in Hmap as (x & _ & Hx).
      by apply buildCard_Throw_inv in Hx as [-> _].
    + apply Array_map_Normal_inv in Hmap.
      apply Exists_exists in Hex' as (x & Hin & Hx).
      apply list_elem_of_lookup in Hin as [i Hi].
      destruct (Forall2_lookup_l _ _ _ _ _ Hmap Hi) as (card & _ & Hcard).
      by rewrite (buildCard_no_date h x Hx) in Hcard.
  - intros Hd. pose proof (latest_Forall has_date entries Hd) as Hd'.
    destruct (renderCards_cases h entries doc)
      as [(err & Hmap & _)|(cards & Hmap & ->)].
    + apply Array_map_Throw_inv in Hmap as (x & Hin & Hx).
      apply buildCard_Throw_inv in Hx as [_ Hx].
      destruct (proj1 (Forall_forall _ _) Hd' x Hin) as [s Hs].
      unfold undated in Hx. congruence.
    + exists cards. split; [by apply Array_map_Normal_inv|done].
Qed.

Lemma renderCards_throws_witness :
  (length [undated_entry] ≤ MAX_CARDS)%nat
  ∧ Exists undated [undated_entry]
  ∧ renderCards fetch_host [undated_entry] home_page
    = (hide_fallback home_page, Throw TypeError).
Proof.
  assert ((length [undated_entry] ≤ MAX_CARDS)%nat) as Hl by (vm_compute; lia).
  assert (Exists undated [undated_entry]) as H.
  { constructor. reflexivity. }
  split; [exact Hl|]. split; [exact H|].
  exact (proj1 (renderCards_throws fetch_host [undated_entry] home_page) Hl H).
Defined.

(** X5: [renderCards] adds to the grid and never replaces what the grid
    holds; it sets the placeholder's [display] to "none" and leaves its
    content alone; the grid's own style and every other element stay as
    they were.  This holds whether or not it throws. *)
Theorem renderCards_frame h entries doc :
  (∀ id, id ≠ GRID_ID → id ≠ FALLBACK_ID →
         (renderCards h entries doc).1 !! id = doc !! id)
  ∧ placeholder_content (renderCards h entries doc).1 = placeholder_content doc
  ∧ placeholder_display (renderCards h entries doc).1
    = (fun _ => lit "none") <$> doc !! FALLBACK_ID
  ∧ display <$> (renderCards h entries doc).1 !! GRID_ID
    = display <$> doc !! GRID_ID
  ∧ ∃ html, innerHTML <$> (renderCards h entries doc).1 !! GRID_ID
            = (fun grid => innerHTML grid ++ html) <$> doc !! GRID_ID.
Proof.
  assert (placeholder_display (hide_fallback doc)
          = (fun _ => lit "none") <$> doc !! FALLBACK_ID) as Hhide.
  { unfold placeholder_display. rewrite hide_fallback_lookup.
    by destruct (doc !! FALLBACK_ID). }
  assert (hide_fallback doc !! GRID_ID = doc !! GRID_ID) as Hgrid.
  { apply hide_fallback_lookup_ne, GRID_ID_ne_FALLBACK_ID. }
  destruct (renderCards_cases h entries doc)
    as [(err & _ & ->)|(cards & _ & ->)]; simpl.
  - split; [intros id _ Hid; by apply hide_fallback_lookup_ne|].
    split; [apply hide_fallback_content|]. split; [done|].
    rewrite Hgrid. split; [done|]. exists [].
    destruct (doc !! GRID_ID) as [grid|]; simpl; [|done]. by rewrite app_nil_r.
  - split.
    { intros id Hg Hf. rewrite append_cards_lookup_ne by done.
      by apply hide_fallback_lookup_ne. }
    split; [by rewrite append_cards_content, hide_fallback_content|].
    split.
    { unfold placeholder_display. rewrite append_cards_lookup_ne; [done|].
      intros Heq. by apply GRID_ID_ne_FALLBACK_ID. }
    rewrite append_cards_lookup, Hgrid.
    split; [by destruct (doc !! GRID_ID)|].
    exists (concat cards). by destruct (doc !! GRID_ID).
Qed.

Lemma renderCards_frame_witness :
  lit "site-nav" ≠ GRID_ID ∧ lit "site-nav" ≠ FALLBACK_ID
  ∧ (renderCards fetch_host sample_entries home_page).1 !! lit "site-nav"
    = home_page !! lit "site-nav".
Proof.
  assert (lit "site-nav" ≠ GRID_ID) as Hg by (vm_compute; discriminate).
  assert (lit "site-nav" ≠ FALLBACK_ID) as Hf by (vm_compute; discriminate).
  split; [exact Hg|]. split; [exact Hf|].
  exact (proj1 (renderCards_frame fetch_host sample_entries home_page) _ Hg Hf).
Defined.

Lemma loadJournal_completes h net doc :
  has_transport h → (loadJournal h net doc).2 = Normal ().
Proof.
  intros Ht. destruct net as [|status body].
  { by rewrite loadJournal_transport_failure. }
  destruct (status_ok status) eqn:Hs.
  - destruct body as [data|]; [|by rewrite loadJournal_ok].
    destruct (collection_valid_dec data) as [[entries Hv]|Hinv].
    + rewrite (loadJournal_valid h status data entries) by done.
      by destruct (Array_map _ _).
    + by rewrite loadJournal_invalid.
  - rewrite loadJournal_transport_failure; [done..|].
    simpl. rewrite <- status_ok_range. congruence.
Qed.

(** X6: with [fetch] or [XMLHttpRequest] at hand no exception leaves
    [loadJournal], whatever the network answers and whatever the payload
    holds; with neither it throws a ReferenceError and the page is as it
    was. *)
Theorem loadJournal_uncaught h net doc :
  (has_transport h → (loadJournal h net doc).2 = Normal ())
  ∧ (¬ has_transport h → loadJournal h net doc = (doc, Throw ReferenceError)).
Proof.
  split; [apply loadJournal_completes|].
  intros Hn. apply loadJournal_bare.
  - destruct (has_fetch h) eqn:Hf; [|done]. destruct Hn. by left.
  - destruct (has_XMLHttpRequest h) eqn:Hx; [|done]. destruct Hn. by right.
Qed.

Lemma loadJournal_uncaught_witness :
  has_transport xhr_host
  ∧ (loadJournal xhr_host (Response 200 (Some (sample_payload [undated_entry]))) home_page).2
    = Normal ().
Proof.
  assert (has_transport xhr_host) as H by (by right).
  split; [exact H|].
  exact (proj1 (loadJournal_uncaught xhr_host _ home_page) H).
Defined.

(** X7: a run never shows both cards and an error: when the grid has
    changed, the content of the placeholder is what it was. *)
Theorem cards_or_error h net doc :
  (loadJournal h net doc).1 !! GRID_ID ≠ doc !! GRID_ID →
  placeholder_content (loadJournal h net doc).1 = placeholder_content doc.
Proof.
  intros Hg.
  destruct (loadJournal_outcomes h net doc)
    as [Hr|[(m & _ & Hr)|[(m & _ & Hr)|(cards & Hr)]]]; rewrite Hr in Hg |- *;
    simpl in *.
  - done.
  - destruct Hg. apply showError_lookup_ne, GRID_ID_ne_FALLBACK_ID.
  - destruct Hg. rewrite showError_lookup_ne by apply GRID_ID_ne_FALLBACK_ID.
    apply hide_fallback_lookup_ne, GRID_ID_ne_FALLBACK_ID.
  - by rewrite append_cards_content, hide_fallback_content.
Qed.

Lemma cards_or_error_witness :
  (loadJournal fetch_host (Response 200 (Some (sample_payload sample_entries))) home_page).1
    !! GRID_ID ≠ home_page !! GRID_ID
  ∧ placeholder_content
      (loadJournal fetch_host (Response 200 (Some (sample_payload sample_entries))) home_page).1
    = placeholder_content home_page.
Proof.
  assert ((loadJournal fetch_host (Response 200 (Some (sample_payload sample_entries)))
             home_page).1 !! GRID_ID ≠ home_page !! GRID_ID) as H.
  { vm_compute. discriminate. }
  split; [exact H|]. exact (cards_or_error fetch_host _ home_page H).
Defined.

(** X8: the script touches two elements and no other: whatever the host,
    the network and the payload, every element but the grid and the
    placeholder is as before, no element appears or disappears, and on a
    page without the grid nothing changes at all. *)
Theorem main_frame h net doc :
  (∀ id, id ≠ GRID_ID → id ≠ FALLBACK_ID → (main h net doc).1 !! id = doc !! id)
  ∧ (∀ id, is_Some ((main h net doc).1 !! id) ↔ is_Some (doc !! id))
  ∧ (doc !! GRID_ID = None → main h net doc = (doc, Normal ())).
Proof.
  assert (∀ m d id, is_Some (showError m d !! id) ↔ is_Some (d !! id)) as Hshow.
  { intros m d id. destruct (decide (id = FALLBACK_ID)) as [->|Hne].
    - rewrite showError_lookup. apply fmap_is_Some.
    - by rewrite showError_lookup_ne. }
  assert (∀ d id, is_Some (hide_fallback d !! id) ↔ is_Some (d !! id)) as Hhide.
  { intros d id. destruct (decide (id = FALLBACK_ID)) as [->|Hne].
    - rewrite hide_fallback_lookup. apply fmap_is_Some.
    - by rewrite hide_fallback_lookup_ne. }
  assert (∀ c d id, is_Some (append_cards c d !! id) ↔ is_Some (d !! id)) as Happ.
  { intros c d id. destruct (decide (id = GRID_ID)) as [->|Hne].
    - rewrite append_cards_lookup. apply fmap_is_Some.
    - by rewrite append_cards_lookup_ne. }
  unfold main. destruct (doc !! GRID_ID) as [grid|] eqn:Hgrid; [|done].
  split; [|split; [|done]].
  - intros id Hg Hf.
    destruct (loadJournal_outcomes h net doc)
      as [->|[(m & _ & ->)|[(m & _ & ->)|(cards & ->)]]]; simpl.
    + done.
    + by rewrite showError_lookup_ne.
    + by rewrite showError_lookup_ne, hide_fallback_lookup_ne.
    + by rewrite append_cards_lookup_ne, hide_fallback_lookup_ne.
  - intros id.
    destruct (loadJournal_outcomes h net doc)
      as [->|[(m & _ & ->)|[(m & _ & ->)|(cards & ->)]]]; simpl.
    + done.
    + apply Hshow.
    + by rewrite Hshow, Hhide.
    + by rewrite Happ, Hhide.
Qed.

Lemma main_frame_witness :
  (∅ : document) !! GRID_ID = None
  ∧ main fetch_host NetworkFailure ∅ = (∅, Normal ()).
Proof.
  assert ((∅ : document) !! GRID_ID = None) as H by apply lookup_empty.
  split; [exact H|].
  exact (proj2 (proj2 (main_frame fetch_host NetworkFailure ∅)) H).
Defined.

(** X9: an error reported after rendering began goes into a placeholder
    that is already hidden: when a collection of at most three entries
    holds one without a date, the run ends with the error markup in the
    placeholder and the placeholder's [display] at "none". *)
Theorem late_error_hidden h status data entries doc fallback :
  has_transport h → status_ok status = true → collection_valid data entries →
  (length entries ≤ MAX_CARDS)%nat → Exists undated entries →
  doc !! FALLBACK_ID = Some fallback →
  (loadJournal h (Response status (Some data)) doc).1 !! FALLBACK_ID
  = Some {| innerHTML := error_html (catch_message h); display := lit "none" |}.
Proof.
  intros Ht Hs Hv Hl Hex Hfb.
  rewrite (missing_date_outcome h status data entries);
    [|done..|by apply latest_small_undated].
  simpl. by rewrite showError_lookup, hide_fallback_lookup, Hfb.
Qed.

Lemma late_error_hidden_witness :
  (loadJournal fetch_host (Response 200 (Some (sample_payload [undated_entry]))) home_page).1
    !! FALLBACK_ID
  = Some {| innerHTML := error_html COULD_NOT_LOAD; display := lit "none" |}.
Proof.
  refine (late_error_hidden fetch_host 200 (sample_payload [undated_entry])
            [undated_entry] home_page
            {| innerHTML := lit "<p>Loading journal entries</p>"; display := [] |}
            _ _ _ _ _ _).
  - by left.
  - reflexivity.
  - eexists. split; [reflexivity|]. split; [apply lookup_singleton_eq|done].
  - vm_compute. lia.
  - constructor. reflexivity.
  - reflexivity.
Defined.

End page.

(** ** Escaping and markup *)

Section markup.

Implicit Types (h : host) (e : entry) (s : jsstring) (c : N).

Lemma entity_app_inj c1 c2 (r1 r2 : jsstring) :
  entity c1 ++ r1 = entity c2 ++ r2 → c1 = c2 ∧ r1 = r2.
Proof.
  intros H.
  destruct (special_cases c1) as [->|[->|[->|[->|[->|H1]]]]];
    destruct (special_cases c2) as [->|[->|[->|[->|[->|H2]]]]];
    try (vm_compute in H; by simplify_eq).
  1-5: rewrite (entity_plain c2 H2) in H; apply special_false in H2;
       vm_compute in H; simplify_eq; tauto.
  1-5: rewrite (entity_plain c1 H1) in H; apply special_false in H1;
       vm_compute in H; simplify_eq; tauto.
  rewrite (entity_plain c1 H1), (entity_plain c2 H2) in H. by simplify_eq/=.
Qed.

Lemma entity_nonempty c : entity c ≠ [].
Proof.
  destruct (special_cases c) as [->|[->|[->|[->|[->|Hc]]]]];
    try (vm_compute; discriminate).
  by rewrite entity_plain.
Qed.

(** X10: escaping loses nothing: two strings that escape to the same text
    are the same string. *)
Theorem escapeHtml_injective s1 s2 :
  escapeHtml (VString s1) = escapeHtml (VString s2) → s1 = s2.
Proof.
  rewrite !escapeHtml_entities. revert s2.
  induction s1 as [|c1 s1 IH]; intros [|c2 s2]; simpl; intros H.
  - done.
  - symmetry in H. apply app_eq_nil in H as [H _]. by apply entity_nonempty in H.
  - apply app_eq_nil in H as [H _]. by apply entity_nonempty in H.
  - apply entity_app_inj in H as [-> H]. f_equal. by apply IH.
Qed.

Lemma escapeHtml_injective_witness :
  escapeHtml (VString (lit "a<b")) = escapeHtml (VString (lit "a<b"))
  ∧ lit "a<b" = lit "a<b".
Proof.
  assert (escapeHtml (VString (lit "a<b")) = escapeHtml (VString (lit "a<b"))) as H
    by reflexivity.
  split; [exact H|]. exact (escapeHtml_injective _ _ H).
Defined.

Lemma occurrences_notin c s : c ∉ s → occurrences c s = 0%nat.
Proof.
  unfold occurrences. induction s as [|x s IH]; [done|].
  intros Hnotin. apply not_elem_of_cons in Hnotin as [Hne Hnotin].
  rewrite filter_cons_False by done. by apply IH.
Qed.

(** No value leaves [escapeHtml] with a less-than, a greater-than, a
    double quote or an apostrophe in it. *)
Lemma escapeHtml_occurrences c (v : value) :
  c ∈ [LT; GT; QUOT; APOS] → occurrences c (escapeHtml v) = 0%nat.
Proof.
  intros Hc.
  change (escapeHtml v) with (escapeHtml (VString (ToString v))).
  rewrite escapeHtml_entities.
  induction (ToString v) as [|x s IH]; [done|]. simpl.
  rewrite occurrences_app, IH, Nat.add_0_r.
  apply occurrences_notin. by apply entity_no_raw.
Qed.

Lemma escapeHtml_truthy (v : value) :
  ToBoolean (VString (escapeHtml v)) = ToBoolean (VString (ToString v)).
Proof.
  change (escapeHtml v) with (escapeHtml (VString (ToString v))).
  rewrite escapeHtml_entities.
  destruct (ToString v) as [|x s]; [done|]. simpl.
  pose proof (entity_nonempty x). by destruct (entity x).
Qed.

(** Evaluate the counts of a code unit in the literals of the goal. *)
Ltac count_literals :=
  repeat match goal with
         | |- context [occurrences ?c (markup ?s)] =>
             let v := eval vm_compute in (occurrences c (markup s)) in
             change (occurrences c (markup s)) with v
         | |- context [occurrences ?c (lit ?s)] =>
             let v := eval vm_compute in (occurrences c (lit s)) in
             change (occurrences c (lit s)) with v
         | |- context [occurrences ?c []] =>
             change (occurrences c []) with 0%nat
         end.

Lemma digits_no_char c u :
  (c < 48 ∨ 57 < c)%N → occurrences c (digits u) = 0%nat.
Proof.
  intros Hc. unfold occurrences.
  induction u; simpl; [done|..]; rewrite filter_cons_False by lia; done.
Qed.

Lemma manual_format_no_markup c t :
  c ∈ [LT; GT; QUOT; APOS] → occurrences c (manual_format t) = 0%nat.
Proof.
  intros Hc.
  assert ((c < 48 ∨ 57 < c)%N ∧ c ≠ DASH) as [Hd Hdash].
  { repeat (apply elem_of_cons in Hc as [->|Hc]; [vm_compute; split; [|discriminate]; auto|]).
    by apply elem_of_nil in Hc. }
  assert (∀ n, occurrences c (NumberToString n) = 0%nat) as Hnum.
  { intros n. unfold NumberToString. destruct (Z.to_int n) as [u|u].
    - by apply digits_no_char.
    - unfold occurrences. rewrite filter_cons_False by done.
      by apply digits_no_char. }
  assert (occurrences c (ToString (index months (getMonth t))) = 0%nat) as Hmonth.
  { unfold index. destruct (getMonth t <? 0).
    - repeat (apply elem_of_cons in Hc as [->|Hc]; [reflexivity|]).
      by apply elem_of_nil in Hc.
    - generalize (Z.to_nat (getMonth t)). intros n.
      repeat (apply elem_of_cons in Hc as [->|Hc];
              [do 12 (destruct n as [|n]; [reflexivity|]); reflexivity|]).
      by apply elem_of_nil in Hc. }
  unfold manual_format. rewrite !occurrences_app, !Hnum, Hmonth.
  repeat (apply elem_of_cons in Hc as [->|Hc]; [reflexivity|]).
  by apply elem_of_nil in Hc.
Qed.

(** X11: no field of an entry can add markup to its card, but its date
    can.  The card has 14 less-than signs and 16 double quotes (2 more of
    each with a read time) plus those of the date text, which is the one
    part that is not escaped; on the fallback path a date free of
    less-than signs leaves exactly the 14 (or 16) of the template. *)
Theorem buildCard_markup h e card :
  buildCard h e = Normal card →
  ∃ formattedDate,
    formatDate h (get e (lit "date")) = Normal formattedDate
    ∧ occurrences LT card
      = (14 + (if ToBoolean (get e (lit "readTime")) then 2 else 0)
         + occurrences LT formattedDate)%nat
    ∧ occurrences QUOT card
      = (16 + (if ToBoolean (get e (lit "readTime")) then 2 else 0)
         + occurrences QUOT formattedDate)%nat
    ∧ (Intl_format h = None →
       occurrences LT (ToString (get e (lit "date"))) = 0%nat →
       occurrences LT formattedDate = 0%nat).
Proof.
  unfold buildCard.
  destruct (formatDate h (get e (lit "date"))) as [formattedDate|] eqn:Hf; [|done].
  unfold mbind, completion_bind. cbv beta iota zeta.
  intros Hcard. apply (f_equal (fun r => match r with Normal x => x | Throw _ => [] end)) in Hcard.
  cbv beta iota in Hcard. rewrite <- Hcard. clear Hcard card.
  exists formattedDate. split; [done|].
  assert (ToBoolean (VString (if ToBoolean (get e (lit "readTime"))
                              then escapeHtml (get e (lit "readTime")) else []))
          = ToBoolean (get e (lit "readTime"))) as Hrt.
  { destruct (get e (lit "readTime")) as [|[|x r]]; [done..|].
    change (ToBoolean (VString (escapeHtml (VString (x :: r)))) = true).
    by rewrite escapeHtml_truthy. }
  rewrite Hrt.
  assert (LT ∈ [LT; GT; QUOT; APOS]) as HLT by in_list.
  assert (QUOT ∈ [LT; GT; QUOT; APOS]) as HQ by in_list.
  split; [|split].
  - destruct (ToBoolean (get e (lit "readTime")));
      rewrite !occurrences_app, !(escapeHtml_occurrences LT) by done;
      count_literals; lia.
  - destruct (ToBoolean (get e (lit "readTime")));
      rewrite !occurrences_app, !(escapeHtml_occurrences QUOT) by done;
      count_literals; lia.
  - intros Hi Hraw.
    destruct (get e (lit "date")) as [|s]; [done|]. simpl in Hraw.
    destruct (split DASH s) as [|p0 [|p1 [|p2 rest]]] eqn:Hs;
      try (rewrite formatDate_few_parts in Hf by (rewrite Hs; simpl; lia);
           by simplify_eq).
    rewrite (formatDate_parts h s p0 p1 p2 rest Hs) in Hf.
    destruct (Date _ _ _) as [t|]; [|by simplify_eq].
    unfold formatted in Hf. rewrite Hi in Hf. simplify_eq.
    by apply manual_format_no_markup.
Qed.

Lemma buildCard_markup_witness :
  ∃ formattedDate,
    formatDate fetch_host (get (sample_entry "one" "2025-01-01") (lit "date"))
      = Normal formattedDate
    ∧ occurrences LT (sample_card "one" "2025-01-01" "1 Jan 2025")
      = (14 + (if ToBoolean (get (sample_entry "one" "2025-01-01") (lit "readTime"))
               then 2 else 0)
         + occurrences LT formattedDate)%nat.
Proof.
  assert (buildCard fetch_host (sample_entry "one" "2025-01-01")
          = Normal (sample_card "one" "2025-01-01" "1 Jan 2025")) as H.
  { vm_compute. reflexivity. }
  destruct (buildCard_markup fetch_host _ _ H) as (formattedDate & Hf & Hlt & _).
  exists formattedDate. split; [exact Hf|exact Hlt].
Defined.

(** X12: the message of [showError] cannot add markup to the page: what
    it writes into the placeholder has the 6 less-than signs, the 6
    greater-than signs and the 2 double quotes of its two paragraphs and
    one link, whatever the message holds. *)
Theorem showError_markup (message : jsstring) (doc : document) fallback :
  doc !! FALLBACK_ID = Some fallback →
  ∃ html,
    placeholder_content (showError message doc) = Some html
    ∧ occurrences LT html = 6%nat
    ∧ occurrences GT html = 6%nat
    ∧ occurrences QUOT html = 2%nat.
Proof.
  intros Hfb. exists (error_html message).
  split; [by rewrite showError_content, Hfb|].
  unfold error_html.
  assert (LT ∈ [LT; GT; QUOT; APOS]) as HLT by in_list.
  assert (GT ∈ [LT; GT; QUOT; APOS]) as HGT by in_list.
  assert (QUOT ∈ [LT; GT; QUOT; APOS]) as HQ by in_list.
  repeat split;
    rewrite !occurrences_app, escapeHtml_occurrences by done;
    count_literals; lia.
Qed.

Lemma showError_markup_witness :
  ∃ html,
    placeholder_content (showError (lit "<script>") home_page) = Some html
    ∧ occurrences LT html = 6%nat.
Proof.
  destruct (showError_markup (lit "<script>") home_page
              {| innerHTML := lit "<p>Loading journal entries</p>"; display := [] |}
              eq_refl) as (html & Hc & Hlt & _).
  exists html. split; [exact Hc|exact Hlt].
Defined.

End markup.

(** ** Reading and showing dates *)

Section reading.

Implicit Types (h : host) (s p tail : jsstring) (u : uint).

Lemma digit_range c v : digit c = Some v → 0 ≤ v ≤ 9.
Proof.
  unfold digit. destruct (N.leb_spec 48 c), (N.leb_spec c 57); simpl; try done.
  intros [= <-]. lia.
Qed.


















Lemma split_parts_no_sep sep s : Forall (fun p => sep ∉ p) (split sep s).
Proof.
  induction s as [|c s IH]; simpl.
  - repeat constructor. apply not_elem_of_nil.
  - destruct (N.eqb_spec c sep) as [->|Hne].
    + constructor; [apply not_elem_of_nil|done].
    + destruct (split sep s) as [|p0 ps].
      * repeat constructor. apply not_elem_of_cons. split; [done|apply not_elem_of_nil].
      * apply Forall_cons in IH as [Hp0 Hps]. constructor; [|done].
        by apply not_elem_of_cons.
Qed.

Lemma trim_start_suffix p : trim_start p `suffix_of` p.
Proof.
  induction p as [|c p IH]; simpl; [done|].
  destruct (white_space c); [|done]. by apply suffix_cons_r.
Qed.

Lemma fold_digits_nonneg (ds : list Z) acc :
  0 ≤ acc → Forall (fun d => 0 ≤ d) ds →
  0 ≤ foldl (fun a d => 10 * a + d) acc ds.
Proof.
  intros Hacc Hds. revert acc Hacc.
  induction Hds as [|d ds Hd _ IH]; intros acc Hacc; simpl; [done|].
  apply IH. lia.
Qed.

Lemma leading_digits_nonneg p : Forall (fun d => 0 ≤ d) (leading_digits p).
Proof.
  induction p as [|c p IH]; simpl; [constructor|].
  destruct (digit c) as [v|] eqn:Hc; [|constructor].
  constructor; [|done]. apply digit_range in Hc. lia.
Qed.

(** Between two dashes [parseInt] reads no negative number. *)
Lemma parseInt_nonneg p v : DASH ∉ p → parseInt p = Some v → 0 ≤ v.
Proof.
  intros Hp. unfold parseInt.
  pose proof (trim_start_suffix p) as [pre Hpre].
  destruct (trim_start p) as [|c r] eqn:Ht.
  - simpl. done.
  - assert (c ≠ DASH) as Hc.
    { intros ->. apply Hp. rewrite Hpre. apply elem_of_app. right. left. }
    destruct (N.eqb_spec c DASH) as [|_]; [done|].
    destruct (c =? PLUS)%N.
    + destruct (leading_digits r) as [|d ds] eqn:Hl; [done|]. rewrite <- Hl.
      intros Hv. apply (inj Some) in Hv. subst v.
      rewrite Z.mul_1_l. apply fold_digits_nonneg; [lia|apply leading_digits_nonneg].
    + destruct (leading_digits (c :: r)) as [|d ds] eqn:Hl; [done|]. rewrite <- Hl.
      intros Hv. apply (inj Some) in Hv. subst v.
      rewrite Z.mul_1_l. apply fold_digits_nonneg; [lia|apply leading_digits_nonneg].
Qed.

Lemma date_components_nonneg s y m d :
  date_components s y m d → 0 ≤ y ∧ 0 ≤ m ∧ 0 ≤ d.
Proof.
  intros (p0 & p1 & p2 & rest & Hs & H0 & H1 & H2).
  pose proof (split_parts_no_sep DASH s) as Hparts. rewrite Hs in Hparts.
  apply Forall_cons in Hparts as [Hp0 Hparts].
  apply Forall_cons in Hparts as [Hp1 Hparts].
  apply Forall_cons in Hparts as [Hp2 _].
  split; [by apply (parseInt_nonneg p0)|].
  split; [by apply (parseInt_nonneg p1)|by apply (parseInt_nonneg p2)].
Qed.

Lemma DaysBeforeMonth_nonneg y mn :
  0 ≤ DaysBeforeMonth (if DaysInYear y =? 366 then 1 else 0) mn.
Proof.
  destruct (DaysInYear y =? 366);
    unfold DaysBeforeMonth; repeat case_match; lia.
Qed.

(** X14: a year past the range of [Date] is not formatted: whatever its
    month and day, a date string whose year is 275761 or later comes back
    as it was written, on either path. *)
Theorem formatDate_year_out_of_range h s y m d :
  date_components s y m d → 275761 ≤ y →
  formatDate h (VString s) = Normal s.
Proof.
  intros Hc Hy. pose proof (date_components_nonneg s y m d Hc) as (_ & Hm & Hd).
  destruct Hc as (p0 & p1 & p2 & rest & Hs & H0 & H1 & H2).
  rewrite (formatDate_parts h s p0 p1 p2 rest Hs), H0, H1, H2.
  simpl minus_one. unfold Date.
  destruct (Z.leb_spec 0 y), (Z.leb_spec y 99); simpl; try lia.
  unfold MakeDate, TimeClip, MakeDay. rewrite Z.add_0_r.
  pose proof (DaysBeforeMonth_nonneg (y + (m - 1) / 12) ((m - 1) mod 12)) as Hb.
  assert (100000077 ≤ DayFromYear (y + (m - 1) / 12)
                      + DaysBeforeMonth
                          (if DaysInYear (y + (m - 1) / 12) =? 366 then 1 else 0)
                          ((m - 1) mod 12)) as Hday.
  { destruct (Z.eq_dec m 0) as [->|Hm0].
    - change ((0 - 1) / 12) with (-1). change ((0 - 1) mod 12) with 11.
      pose proof (DayFromYear_mono 275760 (y + -1)).
      assert (DayFromYear 275760 = 99999744) by reflexivity.
      destruct (DaysInYear (y + -1) =? 366); simpl; lia.
    - assert (0 ≤ (m - 1) / 12) by (Z.div_mod_to_equations; lia).
      pose proof (DayFromYear_mono 275761 (y + (m - 1) / 12)).
      assert (DayFromYear 275761 = 100000110) by reflexivity. lia. }
  destruct (Z.leb_spec (Z.abs ((DayFromYear (y + (m - 1) / 12)
              + DaysBeforeMonth
                  (if DaysInYear (y + (m - 1) / 12) =? 366 then 1 else 0)
                  ((m - 1) mod 12) + d - 1) * msPerDay)) 8640000000000000)
    as [Hsmall|]; [|done].
  unfold msPerDay in Hsmall. lia.
Qed.

Lemma formatDate_year_out_of_range_witness :
  formatDate fetch_host (VString (lit "300000-06-15")) = Normal (lit "300000-06-15").
Proof.
  refine (formatDate_year_out_of_range fetch_host _ 300000 6 15 _ _).
  - by exists (lit "300000"), (lit "06"), (lit "15"), [].
  - lia.
Defined.

(** The twelve months, in a common and in a leap year. *)
Ltac month_cases y m :=
  let Hcases := fresh in
  assert (m = 1 ∨ m = 2 ∨ m = 3 ∨ m = 4 ∨ m = 5 ∨ m = 6 ∨ m = 7 ∨ m = 8
          ∨ m = 9 ∨ m = 10 ∨ m = 11 ∨ m = 12) as Hcases by lia;
  repeat (destruct Hcases as [->|Hcases]);
  destruct (DaysInYear_cases y) as [Hl|Hl]; rewrite ?Hl in *; simpl in *; lia.

Lemma Date_next_month y m k :
  100 ≤ y → 1 ≤ m ≤ 12 →
  Date (Some y) (Some (m - 1)) (Some (DaysInMonth y m + k))
  = Date (Some (month_after y m).1) (Some ((month_after y m).2 - 1)) (Some k).
Proof.
  intros Hy Hm. unfold month_after.
  destruct (Z.eqb_spec m 12) as [->|Hne]; simpl fst; simpl snd.
  - unfold Date. destruct (Z.leb_spec 0 y), (Z.leb_spec y 99),
      (Z.leb_spec 0 (y + 1)), (Z.leb_spec (y + 1) 99); simpl; try lia.
    f_equal. f_equal. unfold MakeDay.
    change ((12 - 1) / 12) with 0. change ((12 - 1) mod 12) with 11.
    change ((1 - 1) / 12) with 0. change ((1 - 1) mod 12) with 0.
    rewrite !Z.add_0_r, DayFromYear_step.
    unfold DaysInMonth, DaysBeforeMonth.
    destruct (DaysInYear_cases y) as [Hl|Hl]; rewrite Hl; simpl; lia.
  - unfold Date. destruct (Z.leb_spec 0 y), (Z.leb_spec y 99); simpl; try lia.
    f_equal. f_equal. unfold MakeDay.
    replace ((m - 1) / 12) with 0 by (Z.div_mod_to_equations; lia).
    replace ((m + 1 - 1) / 12) with 0 by (Z.div_mod_to_equations; lia).
    replace ((m - 1) mod 12) with (m - 1) by (Z.div_mod_to_equations; lia).
    replace ((m + 1 - 1) mod 12) with m by (Z.div_mod_to_equations; lia).
    rewrite !Z.add_0_r.
    assert (DaysBeforeMonth (if DaysInYear y =? 366 then 1 else 0) (m - 1)
            + DaysInMonth y m
            = DaysBeforeMonth (if DaysInYear y =? 366 then 1 else 0) m) as Hb.
    { unfold DaysInMonth. month_cases y m. }
    lia.
Qed.

(** X15: a day past the end of its month is not rejected but counted on
    into the next month: day [DaysInMonth y m + k] of month [m] is shown
    as day [k] of the month after (of January of the next year after
    December). *)
Theorem formatDate_next_month h s y m k :
  Intl_format h = None →
  date_components s y m (DaysInMonth y m + k) →
  100 ≤ y → 1 ≤ m ≤ 12 →
  calendar_date (month_after y m).1 (month_after y m).2 k →
  formatDate h (VString s)
  = Normal (shown_date (month_after y m).1 (month_after y m).2 k).
Proof.
  intros Hi Hs Hy Hm Hc.
  destruct (Date_calendar _ _ _ Hc) as (t & Ht & _).
  rewrite <- Date_next_month in Ht by done.
  destruct (formatDate_valid_date h s y m _ t Hs Ht) as [-> _].
  unfold formatted, shown_date. rewrite Hi.
  rewrite Date_next_month in Ht by done.
  by rewrite (manual_format_calendar _ _ _ t Hc Ht).
Qed.

Lemma formatDate_next_month_witness :
  formatDate xhr_host (VString (lit "2025-02-30")) = Normal (lit "2 Mar 2025").
Proof.
  refine (formatDate_next_month xhr_host _ 2025 2 2 _ _ _ _ _).
  - reflexivity.
  - by exists (lit "2025"), (lit "02"), (lit "30"), [].
  - lia.
  - lia.
  - unfold calendar_date. vm_compute. repeat split; discriminate.
Defined.

(** X16: a year of one or two digits is read as a year of the twentieth
    century: year [y] from 0 to 99 is shown as [1900 + y]. *)
Theorem formatDate_two_digit_year h s y m d :
  Intl_format h = None → date_components s y m d →
  0 ≤ y ≤ 99 → calendar_date (1900 + y) m d →
  formatDate h (VString s) = Normal (shown_date (1900 + y) m d).
Proof.
  intros Hi Hs Hy Hc.
  destruct (Date_calendar _ _ _ Hc) as (t & Ht & _).
  assert (Date (Some y) (Some (m - 1)) (Some d) = Some t) as Ht'.
  { rewrite <- Ht. unfold Date.
    destruct (Z.leb_spec 0 y), (Z.leb_spec y 99),
      (Z.leb_spec 0 (1900 + y)), (Z.leb_spec (1900 + y) 99); simpl; try lia.
    done. }
  destruct (formatDate_valid_date h s y m d t Hs Ht') as [-> _].
  unfold formatted, shown_date. rewrite Hi.
  by rewrite (manual_format_calendar _ _ _ t Hc Ht).
Qed.

Lemma formatDate_two_digit_year_witness :
  formatDate xhr_host (VString (lit "25-02-15")) = Normal (lit "15 Feb 1925").
Proof.
  refine (formatDate_two_digit_year xhr_host _ 25 2 15 _ _ _ _).
  - reflexivity.
  - by exists (lit "25"), (lit "02"), (lit "15"), [].
  - lia.
  - unfold calendar_date. vm_compute. repeat split; discriminate.
Defined.

End reading.

(** ** The two transports *)

Section transports.

Implicit Types (h : host) (net : network) (doc : document) (entries : list entry).

Lemma formatDate_host h h' (iso : value) :
  Intl_format h = Intl_format h' → formatDate h iso = formatDate h' iso.
Proof. intros Hi. unfold formatDate. by rewrite Hi. Qed.

Lemma buildCard_host h h' (e : entry) :
  Intl_format h = Intl_format h' → buildCard h e = buildCard h' e.
Proof. intros Hi. unfold buildCard. by rewrite (formatDate_host h h'). Qed.

Lemma Array_map_ext {A B} (f g : A → completion B) (l : list A) :
  (∀ x, f x = g x) → Array_map f l = Array_map g l.
Proof. intros Hfg. induction l as [|x l IH]; [done|]. simpl. by rewrite Hfg, IH. Qed.

(** X17: a payload with a non-empty collection of dated entries ends in
    the grid: one card for each of the [min 3 n] selected entries is added
    after what the grid held, in the order of the selection, and the
    placeholder is hidden. *)
Theorem loadJournal_renders_latest h status data entries doc grid :
  has_transport h → status_ok status = true →
  collection_valid data entries → Forall has_date entries →
  doc !! GRID_ID = Some grid →
  ∃ cards,
    length cards = min MAX_CARDS (length entries)
    ∧ Forall2 (fun e card => buildCard h e = Normal card) (latest entries) cards
    ∧ (loadJournal h (Response status (Some data)) doc).1 !! GRID_ID
      = Some {| innerHTML := innerHTML grid ++ concat cards; display := display grid |}
    ∧ placeholder_display (loadJournal h (Response status (Some data)) doc).1
      = (fun _ => lit "none") <$> doc !! FALLBACK_ID.
Proof.
  intros Ht Hs Hv Hd Hgrid.
  destruct (Array_map_total (buildCard h) (latest entries)) as [cards Hcards].
  { apply latest_Forall. eapply Forall_impl; [exact Hd|]. apply buildCard_total. }
  rewrite (loadJournal_valid h status data entries) by done. rewrite Hcards.
  apply Array_map_Normal_inv in Hcards. exists cards. simpl.
  split.
  { rewrite <- (Forall2_length _ _ _ Hcards). unfold latest.
    by rewrite length_take, sorted_perm. }
  split; [done|]. split.
  - rewrite append_cards_lookup.
    rewrite hide_fallback_lookup_ne by apply GRID_ID_ne_FALLBACK_ID.
    by rewrite Hgrid.
  - unfold placeholder_display. rewrite append_cards_lookup_ne.
    + rewrite hide_fallback_lookup. by destruct (doc !! FALLBACK_ID).
    + intros Heq. by apply GRID_ID_ne_FALLBACK_ID.
Qed.

Lemma loadJournal_renders_latest_witness :
  ∃ cards,
    length cards = min MAX_CARDS (length sample_entries)
    ∧ (loadJournal xhr_host (Response 200 (Some (sample_payload sample_entries))) home_page).1
        !! GRID_ID
      = Some {| innerHTML := [] ++ concat cards; display := [] |}.
Proof.
  destruct (loadJournal_renders_latest xhr_host 200 (sample_payload sample_entries)
              sample_entries home_page {| innerHTML := []; display := [] |})
    as (cards & Hl & _ & Hg & _).
  - by right.
  - reflexivity.
  - eexists. split; [reflexivity|]. split; [apply lookup_singleton_eq|done].
  - repeat constructor; by eexists.
  - reflexivity.
  - exists cards. split; [exact Hl|exact Hg].
Defined.

(** X18: the two transports end the same way: with the same date
    formatter at hand, a transport failure, a payload without a usable
    collection and a payload of dated entries leave the same page whether
    the host has [fetch] or only [XMLHttpRequest].  (They differ on a
    payload that does not decode and on an entry without a date, where
    each path has a message of its own.) *)
Theorem transports_agree h h' net doc :
  has_transport h → has_transport h' → Intl_format h = Intl_format h' →
  (transport_failure net
   ∨ ∃ status data,
       net = Response status (Some data) ∧ status_ok status = true
       ∧ ((∀ entries, ¬ collection_valid data entries)
          ∨ ∃ entries, collection_valid data entries ∧ Forall has_date entries)) →
  loadJournal h net doc = loadJournal h' net doc.
Proof.
  intros Ht Ht' Hi [Hfail|(status & data & -> & Hs & [Hinv|(entries & Hv & Hd)])].
  - by rewrite !loadJournal_transport_failure.
  - by rewrite !loadJournal_invalid.
  - rewrite !(loadJournal_valid _ status data entries) by done.
    rewrite (Array_map_ext (buildCard h) (buildCard h'))
      by (intros e; by apply buildCard_host).
    destruct (Array_map_total (buildCard h') (latest entries)) as [cards ->]; [|done].
    apply latest_Forall. eapply Forall_impl; [exact Hd|]. apply buildCard_total.
Qed.

Lemma transports_agree_witness :
  loadJournal fetch_host (Response 200 (Some (sample_payload sample_entries))) home_page
  = loadJournal xhr_host (Response 200 (Some (sample_payload sample_entries))) home_page.
Proof.
  refine (transports_agree fetch_host xhr_host _ home_page _ _ _ _).
  - by left.
  - by right.
  - reflexivity.
  - right. exists 200, (sample_payload sample_entries).
    split; [reflexivity|]. split; [reflexivity|]. right. exists sample_entries.
    split.
    + eexists. split; [reflexivity|]. split; [apply lookup_singleton_eq|done].
    + repeat constructor; by eexists.
Defined.

End transports.

(** ** The two paths of formatDate *)

Section paths.

Implicit Types (h : host) (s : jsstring).

(** C8 (as amended): for a date of the calendar, "2025-02-15" among
    them, both paths format the same day: the fallback gives the day, the
    abbreviation of its twelve-entry table and the year ("15 Feb 2025"),
    the primary path gives what the formatter of the host gives for that
    day; so the two agree on the hosts whose formatter writes the date
    the way the table does, and only there. *)
Theorem formatDate_both_paths h s y m d :
  date_components s y m d → calendar_date y m d →
  ∃ t, Date (Some y) (Some (m - 1)) (Some d) = Some t
       ∧ manual_format t = shown_date y m d
       ∧ (Intl_format h = None →
          formatDate h (VString s) = Normal (shown_date y m d))
       ∧ (∀ format, Intl_format h = Some format →
          formatDate h (VString s) = Normal (format t)
          ∧ (formatDate h (VString s) = Normal (shown_date y m d)
             ↔ format t = manual_format t)).
Proof.
  intros Hs Hc. destruct (Date_calendar y m d Hc) as (t & Ht & _).
  exists t. split; [done|].
  pose proof (manual_format_calendar y m d t Hc Ht) as Hm.
  destruct (formatDate_valid_date h s y m d t Hs Ht) as [Hf _].
  split; [exact Hm|]. split.
  - intros Hi. rewrite Hf. unfold formatted. by rewrite Hi, Hm.
  - intros format Hi. rewrite Hf. unfold formatted. rewrite Hi.
    split; [done|]. rewrite Hm. split; [by intros [= ->]|by intros ->].
Qed.

Lemma formatDate_both_paths_witness :
  date_components (lit "2025-02-15") 2025 2 15
  ∧ calendar_date 2025 2 15
  ∧ formatDate xhr_host (VString (lit "2025-02-15")) = Normal (lit "15 Feb 2025")
  ∧ formatDate sept_host (VString (lit "2025-02-15")) = Normal (lit "15 Feb 2025").
Proof.
  assert (date_components (lit "2025-02-15") 2025 2 15) as Hs.
  { by exists (lit "2025"), (lit "02"), (lit "15"), []. }
  assert (calendar_date 2025 2 15) as Hc.
  { unfold calendar_date. vm_compute. repeat split; discriminate. }
  split; [exact Hs|]. split; [exact Hc|].
  destruct (formatDate_both_paths xhr_host _ _ _ _ Hs Hc) as (t & Ht & _ & Hfall & _).
  destruct (formatDate_both_paths sept_host _ _ _ _ Hs Hc) as (t' & Ht' & _ & _ & Hprim).
  split; [exact (Hfall eq_refl)|].
  destruct (Hprim sept_format eq_refl) as [Hp _].
  rewrite Hp. injection Ht' as <-. reflexivity.
Defined.

(** C8 (as stated) fails: on a host whose formatter abbreviates September
    as "Sept" the primary path shows 15 September 2025 as "15 Sept 2025"
    and the fallback shows it as "15 Sep 2025". *)
Lemma formatDate_paths_differ :
  ¬ (∀ h h' s y m d,
       Intl_format h' = None → date_components s y m d → calendar_date y m d →
       formatDate h (VString s) = formatDate h' (VString s)).
Proof.
  intros H.
  specialize (H sept_host xhr_host (lit "2025-09-15") 2025 9 15 eq_refl).
  assert (date_components (lit "2025-09-15") 2025 9 15) as Hs.
  { exists (lit "2025"), (lit "09"), (lit "15"), [].
    repeat split; vm_compute; reflexivity. }
  assert (calendar_date 2025 9 15) as Hc.
  { unfold calendar_date. vm_compute. repeat split; discriminate. }
  specialize (H Hs Hc). vm_compute in H. discriminate H.
Qed.

End paths.
